(** * Order submission engine of the Petshop (ClickEats) ordering application

    A shallow embedding of the storage procedures and of the order-creation
    hook of the repository:

    - [sync_menu_item_availability]: the BEFORE INSERT OR UPDATE trigger on
      [menu_items] (supabase/migrations/20250103000000_fix_availability_trigger.sql);
    - [decrement_menu_item_stock]: the clamped batch decrement;
    - [prevent_spam_orders_per_ip]: the rate-limit trigger on [orders];
    - [createOrder]: the four phases of the order-creation hook
      (src/hooks/useOrders.ts, as the checkout analysis of the repository
      quotes it);
    - [search_order_by_id]: the order lookup by identifier fragment
      (supabase/migrations/20250116000000_add_order_search_function.sql).

    Tables are lists of rows, nullable columns are [option]s, integers are
    [Z], timestamps are [Z] seconds, money is [Z] in minor units. *)

From stdpp Require Import base option list gmap strings.
From Stdlib Require Import ZArith Lia Ascii.

Local Open Scope Z_scope.

(** ** SQL scalar operators *)

Module Sql.

(** [COALESCE(x, d)]. *)
Definition coalesce {A} (x : option A) (d : A) : A :=
  match x with Some v => v | None => d end.

(** [GREATEST(a, b)] on integers. *)
Definition greatest (a b : Z) : Z := Z.max a b.

(** [x IS DISTINCT FROM y]: never NULL, two NULLs are not distinct. *)
Definition is_distinct_from {A} `{EqDecision A} (x y : option A) : bool :=
  bool_decide (x ≠ y).

(** [x = y] as a WHERE condition: a row is kept only when the comparison
    is TRUE, and a comparison with NULL is never TRUE. *)
Definition eq_is_true {A} `{EqDecision A} (x y : option A) : bool :=
  match x, y with
  | Some a, Some b => bool_decide (a = b)
  | _, _ => false
  end.

(** [length(trim(s)) > 0]: [trim] removes spaces from both ends, so the
    result is non-empty exactly when [s] has a character that is not a
    space. *)
Fixpoint length_trim_pos (s : string) : bool :=
  match s with
  | EmptyString => false
  | String c r => negb (Ascii.eqb c " "%char) || length_trim_pos r
  end.

End Sql.

Import Sql.

(** ** The [menu_items] table and its availability trigger *)

Record menu_item := MenuItem {
  mi_id : string;
  mi_name : string;
  track_inventory : option bool;
  stock_quantity : option Z;
  low_stock_threshold : option Z;
  available : option bool }.

#[export] Instance menu_item_eq_dec : EqDecision menu_item.
Proof. solve_decision. Defined.

Definition set_stock_quantity (r : menu_item) (q : option Z) : menu_item :=
  MenuItem (mi_id r) (mi_name r) (track_inventory r) q
           (low_stock_threshold r) (available r).

Definition set_low_stock_threshold (r : menu_item) (t : option Z) : menu_item :=
  MenuItem (mi_id r) (mi_name r) (track_inventory r) (stock_quantity r)
           t (available r).

Definition set_available (r : menu_item) (a : option bool) : menu_item :=
  MenuItem (mi_id r) (mi_name r) (track_inventory r) (stock_quantity r)
           (low_stock_threshold r) a.



(** A column of the [OLD] row; every column of [OLD] is NULL when the
    trigger fires for an INSERT. *)
Definition old_col {A} (OLD : option menu_item) (col : menu_item -> option A)
  : option A :=
  match OLD with Some r => col r | None => None end.

(** [sync_menu_item_availability()], fired BEFORE INSERT OR UPDATE for each
    row: [OLD] is the stored row, [NEW] the row the statement proposes, and
    the result is the row that is stored. *)
Definition sync_menu_item_availability (OLD : option menu_item)
    (NEW : menu_item) : menu_item :=
  if coalesce (track_inventory NEW) false then
    let q := greatest (coalesce (stock_quantity NEW) 0) 0 in
    let NEW := set_stock_quantity NEW (Some q) in
    let t := greatest (coalesce (low_stock_threshold NEW) 0) 0 in
    let NEW := set_low_stock_threshold NEW (Some t) in
    if is_distinct_from (old_col OLD stock_quantity) (stock_quantity NEW)
       || is_distinct_from (old_col OLD low_stock_threshold)
                            (low_stock_threshold NEW)
       || is_distinct_from (old_col OLD track_inventory) (track_inventory NEW)
    then
      if q <=? t then set_available NEW (Some false)
      else set_available NEW (Some true)
    else NEW
  else NEW.

(** [UPDATE menu_items SET ... WHERE ...]: every row the WHERE clause
    selects is replaced by what the trigger makes of the proposed row. *)
Definition update_row (where_ : menu_item -> bool)
    (set_ : menu_item -> menu_item) (row : menu_item) : menu_item :=
  if where_ row then sync_menu_item_availability (Some row) (set_ row)
  else row.

Definition update_menu_items (where_ : menu_item -> bool)
    (set_ : menu_item -> menu_item) (tbl : list menu_item) : list menu_item :=
  map (update_row where_ set_) tbl.

(** ** Stock decrement *)

(** One entry of the [items jsonb] argument: the [id] and the [qty] read
    from it. *)
Definition stock_entry : Type := string * Z.

(** The statement run for one entry:
    [UPDATE menu_items
     SET stock_quantity = GREATEST(COALESCE(stock_quantity, 0) - qty, 0)
     WHERE track_inventory = true AND id::text = entry->>'id']. *)
Definition decrement_where (entry : stock_entry) (row : menu_item) : bool :=
  eq_is_true (track_inventory row) (Some true)
  && bool_decide (mi_id row = entry.1).

Definition decrement_set (entry : stock_entry) (row : menu_item) : menu_item :=
  set_stock_quantity row
    (Some (greatest (coalesce (stock_quantity row) 0 - entry.2) 0)).

Definition decrement_entry (tbl : list menu_item) (entry : stock_entry)
  : list menu_item :=
  update_menu_items (decrement_where entry) (decrement_set entry) tbl.

(** [decrement_menu_item_stock(items jsonb)]: the statement above for each
    entry of the array, in order. *)
Definition decrement_menu_item_stock (items : list stock_entry)
    (tbl : list menu_item) : list menu_item :=
  foldl decrement_entry tbl items.

(** A sequence of calls of the procedure. *)
Definition decrement_calls (calls : list (list stock_entry))
    (tbl : list menu_item) : list menu_item :=
  foldl (fun t items => decrement_menu_item_stock items t) tbl calls.

Definition tracked (row : menu_item) : Prop := track_inventory row = Some true.

(** The quantity the stock check and the decrement read from a row. *)
Definition current_quantity (row : menu_item) : Z :=
  coalesce (stock_quantity row) 0.

(** What the sequence of statements does to one row. *)
Definition decrement_row (row : menu_item) (entry : stock_entry) : menu_item :=
  update_row (decrement_where entry) (decrement_set entry) row.

Definition decrement_row_items (items : list stock_entry) (row : menu_item)
  : menu_item :=
  foldl decrement_row row items.

Definition decrement_row_calls (calls : list (list stock_entry))
    (row : menu_item) : menu_item :=
  foldl (fun r items => decrement_row_items items r) row calls.

(** The invariant a row keeps along any run of decrements. *)
Definition row_kept (row r : menu_item) : Prop :=
  mi_id r = mi_id row /\ track_inventory r = track_inventory row
  /\ (¬ tracked row -> r = row)
  /\ (0 <= current_quantity row -> 0 <= current_quantity r).

(** ** The [orders] and [order_items] tables *)

Record order := Order {
  o_id : string;
  customer_name : string;
  contact_number : option string;
  service_type : string;
  address : option string;
  pickup_time : option string;
  party_size : option Z;
  dine_in_time : option string;
  payment_method : string;
  reference_number : option string;
  notes : option string;
  total : Z;
  status : string;
  ip_address : option string;
  receipt_url : option string;
  created_at : Z }.

#[export] Instance order_eq_dec : EqDecision order.
Proof. solve_decision. Defined.

Record Variation := MkVariation {
  v_id : string; v_name : string; v_price : Z }.

Record AddOn := MkAddOn {
  a_id : string; a_name : string; a_price : Z; a_quantity : option Z }.

#[export] Instance Variation_eq_dec : EqDecision Variation.
Proof. solve_decision. Defined.

#[export] Instance AddOn_eq_dec : EqDecision AddOn.
Proof. solve_decision. Defined.

(** One row of [order_items]; the surrogate key of the row is left out. *)
Record order_item := OrderItem {
  order_id : string;
  item_id : string;
  oi_name : string;
  variation : option Variation;
  add_ons : option (list AddOn);
  unit_price : Z;
  oi_quantity : Z;
  subtotal : Z;
  oi_created_at : Z }.

#[export] Instance order_item_eq_dec : EqDecision order_item.
Proof. solve_decision. Defined.

Record DB := MkDB {
  menu_items : list menu_item;
  orders : list order;
  order_items : list order_item }.

(** ** Rate limiting of inserts into [orders] *)

Inductive rate_exception :=
| Rate_limit_wait                 (* 'Rate limit: Please wait 60 seconds ...' *)
| Rate_limit_missing_identifiers.

Definition cooldown : Z := 60.

(** [created_at >= (now() - interval '60 seconds')]. *)
Definition in_cooldown (now : Z) (o : order) : bool :=
  now - cooldown <=? created_at o.

(** [NEW.contact_number IS NOT NULL AND length(trim(NEW.contact_number)) > 0],
    the guard of the contact-number query. *)
Definition identifier_present (x : option string) : bool :=
  match x with
  | Some s => length_trim_pos s
  | None => false
  end.

(** [SELECT COUNT( * ) INTO recent_count FROM orders
     WHERE ip_address = NEW.ip_address
       AND created_at >= (now() - interval '60 seconds')]. *)
Definition recent_count (now : Z) (tbl : list order) (NEW : order) : Z :=
  Z.of_nat (length (List.filter (fun o =>
    eq_is_true (ip_address o) (ip_address NEW) && in_cooldown now o) tbl)).

(** [SELECT COUNT( * ) INTO recent_phone_count FROM orders
     WHERE contact_number = NEW.contact_number
       AND created_at >= (now() - interval '60 seconds')], run only under
    the guard [identifier_present (contact_number NEW)]. *)
Definition recent_phone_count (now : Z) (tbl : list order) (NEW : order) : Z :=
  if identifier_present (contact_number NEW) then
    Z.of_nat (length (List.filter (fun o =>
      eq_is_true (contact_number o) (contact_number NEW)
      && in_cooldown now o) tbl))
  else 0.

(** Modelled from the spec: the rejection of an insert that carries no
    identifier, and the guard of the address query, of the hardened trigger
    (migration 20250901172000, of which the source shows the contact-number
    query only): neither the origin address nor the contact number is
    present. *)
Definition missing_identifiers (NEW : order) : bool :=
  negb (identifier_present (ip_address NEW))
  && negb (identifier_present (contact_number NEW)).

(** [prevent_spam_orders_per_ip()], fired BEFORE INSERT on [orders]:
    [None] lets the insert through, [Some e] raises [e]. The address query
    runs when the address is present, as the contact-number query does
    (see [missing_identifiers]). *)
Definition prevent_spam_orders_per_ip (now : Z) (tbl : list order)
    (NEW : order) : option rate_exception :=
  if missing_identifiers NEW then Some Rate_limit_missing_identifiers
  else
    let recent_ip_count :=
      if identifier_present (ip_address NEW) then recent_count now tbl NEW
      else 0 in
    if (0 <? recent_ip_count) || (0 <? recent_phone_count now tbl NEW)
    then Some Rate_limit_wait
    else None.

(** ** Storage outcomes chosen by the environment *)

(** What the hook cannot control about one run: the identifier
    [gen_random_uuid()] draws for the order, and whether a write request
    fails in the storage layer for a reason of its own. *)
Record Env := MkEnv {
  new_order_id : string;
  orders_insert_fails : bool;
  order_items_insert_fails : bool;
  decrement_fails : bool }.

Inductive insert_error :=
| Raised (e : rate_exception)
| StorageFailure.

(** The defaults of the columns the insert does not give:
    [id DEFAULT gen_random_uuid()], [status DEFAULT 'pending'],
    [created_at DEFAULT now()]. *)
Definition with_defaults (env : Env) (now : Z) (NEW : order) : order :=
  Order (new_order_id env) (customer_name NEW) (contact_number NEW)
        (service_type NEW) (address NEW) (pickup_time NEW)
        (party_size NEW) (dine_in_time NEW) (payment_method NEW)
        (reference_number NEW) (notes NEW) (total NEW) "pending"
        (ip_address NEW) (receipt_url NEW) now.

(** [INSERT INTO orders ... RETURNING *]: the defaults, the trigger and the
    primary key. *)
Definition insert_order (env : Env) (now : Z) (NEW : order) (db : DB)
  : insert_error + (DB * order) :=
  if orders_insert_fails env then inl StorageFailure
  else
    let NEW := with_defaults env now NEW in
    match prevent_spam_orders_per_ip now (orders db) NEW with
    | Some e => inl (Raised e)
    | None =>
        if bool_decide (o_id NEW ∈ map o_id (orders db)) then inl StorageFailure
        else inr (MkDB (menu_items db) (orders db ++ [NEW]) (order_items db),
                  NEW)
    end.

(** [INSERT INTO order_items] of a batch of rows, one statement: the
    constraint [CHECK (quantity > 0)] and the foreign key on [order_id];
    a failing statement inserts nothing. *)
Definition insert_order_items (env : Env) (rows : list order_item) (db : DB)
  : option DB :=
  if order_items_insert_fails env then None
  else if forallb (fun r => (0 <? oi_quantity r)
                            && bool_decide (order_id r ∈ map o_id (orders db)))
                  rows
  then Some (MkDB (menu_items db) (orders db) (order_items db ++ rows))
  else None.

(** ** The order-creation hook *)

(** A cart line ([CartItem]): [ci_id] is the compound key of the line,
    [menuItemId] the catalog item it was made from, [totalPrice] the price
    of one unit with its variation and add-ons. *)
Record CartItem := MkCartItem {
  ci_id : string;
  menuItemId : option string;
  ci_name : string;
  selectedVariation : option Variation;
  selectedAddOns : option (list AddOn);
  totalPrice : Z;
  quantity : Z }.

Record OrderPayload := MkPayload {
  customerName : string;
  contactNumber : string;
  serviceType : string;
  p_address : option string;
  pickupTime : option string;
  partySize : option Z;
  dineInTime : option string;
  paymentMethod : string;
  referenceNumber : option string;
  p_notes : option string;
  p_total : Z;
  items : list CartItem;
  receiptUrl : option string }.

(** [ci.menuItemId || ci.id]: the catalog item of a cart line. *)
Definition catalog_id (ci : CartItem) : string :=
  match menuItemId ci with
  | Some s => if bool_decide (s = ""%string) then ci_id ci else s
  | None => ci_id ci
  end.

(** [getTotalPrice()] of the cart hook: the sum of [totalPrice * quantity]
    over the cart lines. *)
Definition getTotalPrice (cart : list CartItem) : Z :=
  foldl (fun total item => total + totalPrice item * quantity item) 0 cart.

(** Modelled from the spec: the construction of [stockAdjustments], which
    the source uses ([stockAdjustments[row.id]]) and does not show: the
    quantities of the cart lines summed per catalog item. *)
Definition stockAdjustments (cart : list CartItem) : gmap string Z :=
  foldl (fun acc item =>
           let id := catalog_id item in
           <[id := default 0 (acc !! id) + quantity item]> acc)
        ∅ cart.

(** Modelled from the spec: [stockedItemIds], the catalog items the cart
    refers to, and [inventoryPayload], the entries passed to the decrement
    ("the same aggregated quantities as step 3"). *)
Definition stockedItemIds (cart : list CartItem) : list string :=
  (map_to_list (stockAdjustments cart)).*1.

Definition inventoryPayload (cart : list CartItem) : list stock_entry :=
  map_to_list (stockAdjustments cart).

(** Phase 1, the query:
    [from('menu_items').select('id, track_inventory, stock_quantity')
       .in('id', stockedItemIds)]. *)
Definition inventorySnapshot (cart : list CartItem) (tbl : list menu_item)
  : list menu_item :=
  List.filter (fun row => bool_decide (mi_id row ∈ stockedItemIds cart)) tbl.

(** Phase 1, the predicate of [find]:
    [row.track_inventory && (row.stock_quantity ?? 0) < stockAdjustments[row.id]];
    a comparison with [undefined] is false. *)
Definition insufficient (cart : list CartItem) (row : menu_item) : bool :=
  coalesce (track_inventory row) false
  && match stockAdjustments cart !! mi_id row with
     | Some requested => coalesce (stock_quantity row) 0 <? requested
     | None => false
     end.

Definition insufficientItem (cart : list CartItem) (tbl : list menu_item)
  : option menu_item :=
  List.find (insufficient cart) (inventorySnapshot cart tbl).

(** Modelled from the spec: [offending], the cart line the error message
    names ([offending?.name]); the source uses it and does not show its
    definition: the first line of the cart that refers to the row found. *)
Definition offending (cart : list CartItem) (row : menu_item)
  : option CartItem :=
  List.find (fun ci => bool_decide (catalog_id ci = mi_id row)) cart.

Inductive OrderError :=
| InsufficientStock (name : option string) (* `Insufficient stock for ${name}` *)
| RateLimited
| MissingIdentifier
| PersistenceError.

(** The requests the hook sends to the storage layer, and the warning of a
    failed decrement. *)
Inductive request :=
| Select_inventory
| Insert_order
| Insert_order_items
| Rpc_decrement_menu_item_stock
| Warning_decrement_failed.

#[export] Instance request_eq_dec : EqDecision request.
Proof. solve_decision. Defined.

(** Phase 2, the values of the insert; the re-formatting of [dineInTime] by
    [toISOString] is left out, an empty [dineInTime] is stored as NULL. The
    columns [id], [status] and [created_at] are filled by [insert_order].
    [clientIp] is the origin address the row carries when the rate-limit
    trigger runs; the trigger that reads it from the request headers is
    not modelled. *)
Definition order_values (clientIp : option string) (payload : OrderPayload)
  : order :=
  Order "" (customerName payload) (Some (contactNumber payload))
        (serviceType payload) (p_address payload) (pickupTime payload)
        (partySize payload)
        (match dineInTime payload with
         | Some s => if bool_decide (s = ""%string) then None else Some s
         | None => None
         end)
        (paymentMethod payload) (referenceNumber payload) (p_notes payload)
        (p_total payload) "" clientIp (receiptUrl payload) 0.

(** Phase 3, the row of one cart line. *)
Definition order_item_of (now : Z) (ord : order) (ci : CartItem) : order_item :=
  OrderItem (o_id ord) (catalog_id ci) (ci_name ci)
            (selectedVariation ci)
            (match selectedAddOns ci with
             | Some (a :: l) =>
                 Some (map (fun a => MkAddOn (a_id a) (a_name a) (a_price a)
                                       (Some (default 1 (a_quantity a))))
                           (a :: l))
             | _ => None
             end)
            (totalPrice ci) (quantity ci) (totalPrice ci * quantity ci) now.

Definition orderItems (now : Z) (ord : order) (payload : OrderPayload)
  : list order_item :=
  map (order_item_of now ord) (items payload).

(** Phase 4, [rpc('decrement_menu_item_stock', { items: inventoryPayload })]:
    the procedure runs in one transaction, a failing call changes nothing. *)
Definition rpc_decrement (env : Env) (entries : list stock_entry) (db : DB)
  : option DB :=
  if decrement_fails env then None
  else Some (MkDB (decrement_menu_item_stock entries (menu_items db))
                  (orders db) (order_items db)).

(** Modelled from the spec: the error a failed insert of the header is
    reported as; the source shows the message the trigger raises for the
    cooldown, the spec names the three failures [RateLimited],
    [MissingIdentifier] and [PersistenceError]. *)
Definition of_insert_error (e : insert_error) : OrderError :=
  match e with
  | Raised Rate_limit_wait => RateLimited
  | Raised Rate_limit_missing_identifiers => MissingIdentifier
  | StorageFailure => PersistenceError
  end.

Record Outcome := MkOutcome {
  db_after : DB;
  requests : list request;
  result : OrderError + order }.

(** Modelled from the spec: the end of the run once the line items are
    persisted. The source shows the call of the decrement, awaited, and not
    what the hook does with its outcome: "step 6 failures are swallowed
    into a warning; the order is still reported successful". *)
Definition report_decrement (db2 : DB) (ord : order) (decremented : option DB)
  : Outcome :=
  match decremented with
  | Some db3 =>
      MkOutcome db3
        [Select_inventory; Insert_order; Insert_order_items;
         Rpc_decrement_menu_item_stock]
        (inr ord)
  | None =>
      MkOutcome db2
        [Select_inventory; Insert_order; Insert_order_items;
         Rpc_decrement_menu_item_stock; Warning_decrement_failed]
        (inr ord)
  end.

(** [createOrder(payload)]: the four phases in the order the hook runs
    them. The source shows the phases and the throw of phase 1; that a
    failed insert of phase 2 or 3 ends the run with its error follows the
    spec ("each step short-circuits on failure"). *)
Definition createOrder (env : Env) (now : Z) (clientIp : option string)
    (payload : OrderPayload) (db : DB) : Outcome :=
  let cart := items payload in
  (* Phase 1: inventory check *)
  match insufficientItem cart (menu_items db) with
  | Some row =>
      MkOutcome db [Select_inventory]
        (inl (InsufficientStock (ci_name <$> offending cart row)))
  | None =>
      (* Phase 2: create the order record *)
      match insert_order env now (order_values clientIp payload) db with
      | inl e =>
          MkOutcome db [Select_inventory; Insert_order]
            (inl (of_insert_error e))
      | inr (db1, ord) =>
          (* Phase 3: create the order items *)
          match insert_order_items env (orderItems now ord payload) db1 with
          | None =>
              MkOutcome db1 [Select_inventory; Insert_order; Insert_order_items]
                (inl PersistenceError)
          | Some db2 =>
              (* Phase 4: decrement the inventory *)
              report_decrement db2 ord
                (rpc_decrement env (inventoryPayload cart) db2)
          end
      end
  end.

(** The order read back with its line items, as the tracking page does. *)
Definition order_with_items (id : string) (db : DB)
  : option (order * list order_item) :=
  match List.find (fun o => bool_decide (o_id o = id)) (orders db) with
  | Some o =>
      Some (o, List.filter (fun r => bool_decide (order_id r = id))
                           (order_items db))
  | None => None
  end.

(** ** Order lookup by identifier fragment *)

Module Like.

Definition percent : ascii := "%"%char.
Definition underscore : ascii := "_"%char.
Definition backslash : ascii := "\"%char.

(** [text LIKE pattern] with the default escape character: [%] matches
    any run of characters, [_] any one character, a backslash takes the
    next character of the pattern literally. A pattern that ends in a
    lone backslash raises in the database; [search_order_by_id] never
    builds one (its patterns end in [%]), and the case yields [false]. *)
Fixpoint like (pattern : string) : string -> bool :=
  match pattern with
  | EmptyString =>
      fun text => match text with EmptyString => true | _ => false end
  | String c p =>
      if Ascii.eqb c percent then
        fix any (text : string) : bool :=
          like p text
          || match text with
             | EmptyString => false
             | String _ rest => any rest
             end
      else if Ascii.eqb c underscore then
        fun text =>
          match text with
          | EmptyString => false
          | String _ rest => like p rest
          end
      else if Ascii.eqb c backslash then
        match p with
        | EmptyString => fun _ => false
        | String e q =>
            fun text =>
              match text with
              | EmptyString => false
              | String d rest => Ascii.eqb e d && like q rest
              end
        end
      else
        fun text =>
          match text with
          | EmptyString => false
          | String d rest => Ascii.eqb c d && like p rest
          end
  end.

(** Lower case of an ASCII letter; other characters are kept. *)
Definition lower_ascii (c : ascii) : ascii :=
  let n := N_of_ascii c in
  if ((65 <=? n) && (n <=? 90))%N then ascii_of_N (n + 32) else c.

Fixpoint lower (s : string) : string :=
  match s with
  | EmptyString => EmptyString
  | String c r => String (lower_ascii c) (lower r)
  end.

(** [text ILIKE pattern]: [LIKE] on the lower-cased text and pattern. *)
Definition ilike (text pattern : string) : bool :=
  like (lower pattern) (lower text).

(** [fragment] occurs in [text] as a run of consecutive characters. *)
Fixpoint contains (fragment text : string) : bool :=
  String.prefix fragment text
  || match text with
     | EmptyString => false
     | String _ rest => contains fragment rest
     end.

(** The identifier contains the fragment, letter case ignored. *)
Definition contains_ci (fragment text : string) : bool :=
  contains (lower fragment) (lower text).

(** A fragment without the characters [LIKE] gives a meaning to. *)
Fixpoint plain (s : string) : bool :=
  match s with
  | EmptyString => true
  | String c r =>
      negb (Ascii.eqb c percent) && negb (Ascii.eqb c underscore)
      && negb (Ascii.eqb c backslash) && plain r
  end.

End Like.

(** [ORDER BY created_at DESC LIMIT 1]: a row with the greatest
    [created_at]; among rows created at the same instant, the first in
    table order. *)
Definition later_of (best : option order) (o : order) : option order :=
  match best with
  | None => Some o
  | Some b => if created_at b <? created_at o then Some o else Some b
  end.

Definition order_by_created_at_desc_limit_1 (rows : list order) : option order :=
  foldl later_of None rows.

(** [search_order_by_id(search_term text)]:
    [SELECT ... FROM orders o
     WHERE o.id::text ILIKE '%' || search_term || '%'
     ORDER BY o.created_at DESC LIMIT 1],
    for a search term that is not NULL; the row is returned with all the
    columns of the table. *)
Definition search_order_by_id (search_term : string) (tbl : list order)
  : option order :=
  order_by_created_at_desc_limit_1
    (List.filter (fun o => Like.ilike (o_id o) ("%" +:+ search_term +:+ "%"))
                 tbl).

(** ** Vocabulary of the properties *)

(** The cart line refers to the catalog item [id]. *)
Definition refers (id : string) (ci : CartItem) : bool :=
  bool_decide (catalog_id ci = id).

(** The sum of the quantities of the cart lines that refer to [id]. *)
Definition requested_total (cart : list CartItem) (id : string) : Z :=
  foldr Z.add 0 (map quantity (List.filter (refers id) cart)).

(** The sum of [totalPrice * quantity] over the cart. *)
Definition cart_sum (cart : list CartItem) : Z :=
  foldr Z.add 0 (map (fun ci => totalPrice ci * quantity ci) cart).

(** The persisted line items of an order and the sum of their subtotals. *)
Definition items_of_order (id : string) (db : DB) : list order_item :=
  List.filter (fun r => bool_decide (order_id r = id)) (order_items db).

Definition sum_of_subtotals (id : string) (db : DB) : Z :=
  foldr Z.add 0 (map subtotal (items_of_order id db)).

(** The foreign key of [order_items]: every line item belongs to an order
    of the store. *)
Definition foreign_key_holds (db : DB) : Prop :=
  forall r, In r (order_items db) -> In (order_id r) (map o_id (orders db)).

(** The order a run returns, if any. *)
Definition created_order (out : Outcome) : option order :=
  match result out with
  | inr ord => Some ord
  | inl _ => None
  end.





(** The same storage outcomes, the decrement succeeding. *)
Definition without_decrement_fault (env : Env) : Env :=
  MkEnv (new_order_id env) (orders_insert_fails env)
        (order_items_insert_fails env) false.

(** ** Sample data *)

Module Sample.

(** The catalog item of the spec's scenarios: tracked, 10 in stock,
    low-stock threshold 2. *)
Definition dog_food : menu_item :=
  MenuItem "A1" "Dog Food 1kg" (Some true) (Some 10) (Some 2) (Some true).


(** An item that does not track its stock. *)
Definition leash : menu_item :=
  MenuItem "B7" "Leash" (Some false) None None (Some true).

(** A store that holds the item with [n] units in stock and no order. *)
Definition store (n : Z) : DB :=
  MkDB [set_stock_quantity dog_food (Some n)] [] [].

(** A cart line of [q] units of the item at 250.00 a unit. *)
Definition line (q : Z) : CartItem :=
  MkCartItem "A1" (Some "A1"%string) "Dog Food 1kg" None None 25000 q.

(** Two lines of the same item that differ in the variation chosen. *)
Definition line_small (q : Z) : CartItem :=
  MkCartItem "A1-small" (Some "A1"%string) "Dog Food 1kg"
             (Some (MkVariation "v1" "Small" 0)) None 25000 q.

Definition line_large (q : Z) : CartItem :=
  MkCartItem "A1-large" (Some "A1"%string) "Dog Food 1kg"
             (Some (MkVariation "v2" "Large" 5000)) None 30000 q.

(** The submission of the spec's scenarios, for a given contact number,
    cart and total. *)
Definition submission (contact : string) (cart : list CartItem) (t : Z)
  : OrderPayload :=
  MkPayload "Jane Doe" contact "pickup" None (Some "15-20 min"%string) None
            None "GCash" None None t cart None.

Definition jane (cart : list CartItem) (t : Z) : OrderPayload :=
  submission "09171234567" cart t.

(** Storage outcomes: no fault, and one fault at a time. *)
Definition fine (id : string) : Env := MkEnv id false false false.
Definition items_fail (id : string) : Env := MkEnv id false true false.
Definition decrement_fail (id : string) : Env := MkEnv id false false true.

Definition uuid1 : string := "0b0e7a3c-5d2f-4c1a-9e64-2f6d8a1b3c4d".
Definition uuid2 : string := "7c9e6679-7425-40de-944b-e07fc1f90ae7".

(** A stored order with a given identifier and creation time. *)
Definition stored_order (id : string) (at_ : Z) : order :=
  Order id "Jane Doe" (Some "09171234567"%string) "pickup" None
        (Some "15-20 min"%string) None None "GCash" None None 50000
        "pending" None None at_.

End Sample.

(** ** The availability trigger before the fix *)

(** [sync_menu_item_availability()] as it was before the fix, and as the
    availability document gives it for a rollback: under tracking, the
    availability is computed on every write. *)
Definition sync_menu_item_availability_before_fix (NEW : menu_item)
  : menu_item :=
  if coalesce (track_inventory NEW) false then
    let q := greatest (coalesce (stock_quantity NEW) 0) 0 in
    let NEW := set_stock_quantity NEW (Some q) in
    let t := greatest (coalesce (low_stock_threshold NEW) 0) 0 in
    let NEW := set_low_stock_threshold NEW (Some t) in
    if q <=? t then set_available NEW (Some false)
    else set_available NEW (Some true)
  else NEW.

(** A tracked row as the trigger leaves it: quantity and threshold are not
    NULL and not negative. *)
Definition well_stored (r : menu_item) : Prop :=
  tracked r ->
  exists q t : Z,
    stock_quantity r = Some q /\ low_stock_threshold r = Some t
    /\ 0 <= q /\ 0 <= t.

(** The quantities of a list of entries are not negative. *)
Definition nonneg_entries (entries : list stock_entry) : Prop :=
  Forall (fun e : stock_entry => 0 <= e.2) entries.

(** ** Identifiers of orders *)

(** A character of the text of a [uuid]: a digit, a letter from [a] to
    [f], or a hyphen. *)
Definition uuid_char (c : ascii) : bool :=
  let n := N_of_ascii c in
  (((48 <=? n) && (n <=? 57)) || ((97 <=? n) && (n <=? 102)) || (n =? 45))%N.

Fixpoint all_chars (f : ascii -> bool) (s : string) : bool :=
  match s with
  | EmptyString => true
  | String c r => f c && all_chars f r
  end.

(** [id::text] of a [uuid]: 36 characters, in lower case. *)
Definition uuid_text (s : string) : bool :=
  (String.length s =? 36)%nat && all_chars uuid_char s.

(** ** The diagnostic queries of diagnose-availability.sql *)

Module Sql3.

(** Conditions are three-valued: [Some true], [Some false], and [None] for
    NULL. *)
Definition and3 (a b : option bool) : option bool :=
  match a, b with
  | Some false, _ | _, Some false => Some false
  | Some true, Some true => Some true
  | _, _ => None
  end.

Definition or3 (a b : option bool) : option bool :=
  match a, b with
  | Some true, _ | _, Some true => Some true
  | Some false, Some false => Some false
  | _, _ => None
  end.

(** [x = y], [x <= y], [x > y]: NULL when an operand is NULL. *)
Definition eq3 (x y : option bool) : option bool :=
  match x, y with
  | Some a, Some b => Some (bool_decide (a = b))
  | _, _ => None
  end.

Definition le3 (x y : option Z) : option bool :=
  match x, y with
  | Some a, Some b => Some (a <=? b)
  | _, _ => None
  end.

Definition gt3 (x y : option Z) : option bool :=
  match x, y with
  | Some a, Some b => Some (b <? a)
  | _, _ => None
  end.

(** [x IS NULL]: never NULL itself. *)
Definition is_null {A} (x : option A) : option bool :=
  match x with
  | None => Some true
  | Some _ => Some false
  end.

(** A WHERE clause, or a WHEN of a CASE, selects when its condition is
    TRUE. *)
Definition holds (c : option bool) : bool :=
  match c with
  | Some true => true
  | _ => false
  end.

End Sql3.

Module Diagnose.
Import Sql3.

(** Query 5, the column [trigger_would_set_to]:
    [CASE WHEN track_inventory AND stock_quantity <= low_stock_threshold
            THEN false
          WHEN track_inventory AND stock_quantity > low_stock_threshold
            THEN true
          ELSE available END]. *)
Definition trigger_would_set_to (r : menu_item) : option bool :=
  if holds (and3 (track_inventory r)
                 (le3 (stock_quantity r) (low_stock_threshold r)))
  then Some false
  else if holds (and3 (track_inventory r)
                      (gt3 (stock_quantity r) (low_stock_threshold r)))
  then Some true
  else available r.

(** Query 8, first part: the rows
    [WHERE track_inventory = true AND stock_quantity IS NULL]. *)
Definition stock_is_null (r : menu_item) : bool :=
  holds (and3 (eq3 (track_inventory r) (Some true))
              (is_null (stock_quantity r))).

Definition items_without_stock (tbl : list menu_item) : list menu_item :=
  List.filter stock_is_null tbl.

(** Query 8, second part: the rows
    [WHERE track_inventory = true
       AND ((available = true AND stock_quantity <= low_stock_threshold)
            OR (available = false AND stock_quantity > low_stock_threshold))]. *)
Definition availability_mismatch (r : menu_item) : bool :=
  holds (and3 (eq3 (track_inventory r) (Some true))
              (or3 (and3 (eq3 (available r) (Some true))
                         (le3 (stock_quantity r) (low_stock_threshold r)))
                   (and3 (eq3 (available r) (Some false))
                         (gt3 (stock_quantity r) (low_stock_threshold r))))).

Definition items_with_mismatch (tbl : list menu_item) : list menu_item :=
  List.filter availability_mismatch tbl.

(** Section 10, the three statements, each run with the trigger of the
    table:
    [UPDATE menu_items SET stock_quantity = 0
     WHERE track_inventory = true AND stock_quantity IS NULL]. *)
Definition fix_null_stock (tbl : list menu_item) : list menu_item :=
  update_menu_items stock_is_null (fun r => set_stock_quantity r (Some 0)) tbl.

(** [UPDATE menu_items SET low_stock_threshold = 0
     WHERE track_inventory = true AND low_stock_threshold IS NULL]. *)
Definition fix_null_threshold (tbl : list menu_item) : list menu_item :=
  update_menu_items
    (fun r => holds (and3 (eq3 (track_inventory r) (Some true))
                          (is_null (low_stock_threshold r))))
    (fun r => set_low_stock_threshold r (Some 0)) tbl.

(** [UPDATE menu_items SET available = (stock_quantity > low_stock_threshold)
     WHERE track_inventory = true]. *)
Definition fix_sync_availability (tbl : list menu_item) : list menu_item :=
  update_menu_items
    (fun r => holds (eq3 (track_inventory r) (Some true)))
    (fun r => set_available r
                (gt3 (stock_quantity r) (low_stock_threshold r))) tbl.

(** The three statements, one after the other. *)
Definition fix_common_issues (tbl : list menu_item) : list menu_item :=
  fix_sync_availability (fix_null_threshold (fix_null_stock tbl)).

(** A row in which the availability agrees with the stock: if it is
    tracked, quantity and threshold are not NULL and not negative and the
    row is available exactly when the quantity exceeds the threshold. *)
Definition in_sync (r : menu_item) : Prop :=
  tracked r ->
  exists q t : Z,
    stock_quantity r = Some q /\ low_stock_threshold r = Some t
    /\ 0 <= q /\ 0 <= t /\ available r = Some (t <? q).

End Diagnose.

(** ** The menu item card: MenuItemCard.tsx *)

Module Card.

(** An add-on as the card reads it. Prices are amounts in the minor unit,
    as everywhere in this development. *)
Record AddOn := MkAddOn {
  ao_id : string;
  ao_name : string;
  ao_price : Z;
  ao_category : string;
  ao_quantity : option Z }.

(** [AddOn & { quantity: number }], an element of the state
    [selectedAddOns]. *)
Record SelectedAddOn := MkSelected {
  sel_id : string;
  sel_name : string;
  sel_price : Z;
  sel_category : string;
  sel_quantity : Z }.

#[export] Instance AddOn_eq_dec : EqDecision AddOn.
Proof. solve_decision. Defined.

#[export] Instance SelectedAddOn_eq_dec : EqDecision SelectedAddOn.
Proof. solve_decision. Defined.

(** The fields of a menu item that the card computes with. *)
Record MenuItem := MkMenuItem {
  basePrice : Z;
  effectivePrice : option Z;
  isOnDiscount : option bool;
  discountPrice : option Z;
  variations : option (list Variation);
  addOns : option (list AddOn) }.

(** [{ ...addOn, quantity }]. *)
Definition select (addOn : AddOn) (quantity : Z) : SelectedAddOn :=
  MkSelected (ao_id addOn) (ao_name addOn) (ao_price addOn)
             (ao_category addOn) quantity.

(** [{ ...updated[existingIndex], quantity }]. *)
Definition with_quantity (s : SelectedAddOn) (quantity : Z) : SelectedAddOn :=
  MkSelected (sel_id s) (sel_name s) (sel_price s) (sel_category s) quantity.

(** [{ ...addOn, quantity: undefined }]. *)
Definition without_quantity (s : SelectedAddOn) : AddOn :=
  MkAddOn (sel_id s) (sel_name s) (sel_price s) (sel_category s) None.

(** *** Discount display values *)

(** [item.effectivePrice ?? basePrice]. *)
Definition effective (item : MenuItem) : Z :=
  default (basePrice item) (effectivePrice item).

(** [Boolean(item.isOnDiscount && item.discountPrice !== undefined)]. *)
Definition hasExplicitDiscount (item : MenuItem) : bool :=
  match isOnDiscount item, discountPrice item with
  | Some true, Some _ => true
  | _, _ => false
  end.

Definition hasImplicitDiscount (item : MenuItem) : bool :=
  effective item <? basePrice item.

Definition showDiscount (item : MenuItem) : bool :=
  hasExplicitDiscount item || hasImplicitDiscount item.

Definition discountedPrice (item : MenuItem) : option Z :=
  if hasExplicitDiscount item then discountPrice item
  else if hasImplicitDiscount item then Some (effective item)
  else None.

(** The SALE badge is rendered under [item.isOnDiscount && item.discountPrice]:
    a number is truthy unless it is zero. *)
Definition sale_badge (item : MenuItem) : bool :=
  match isOnDiscount item, discountPrice item with
  | Some true, Some d => negb (d =? 0)
  | _, _ => false
  end.

(** The price line of the card: the discounted price with the base price
    struck through, or the base price alone. *)
Inductive price_line :=
| Discounted (now_ was : Z)
| Regular (p : Z).

Definition product_price (item : MenuItem) : price_line :=
  match discountedPrice item with
  | Some p => if showDiscount item then Discounted p (basePrice item)
              else Regular (basePrice item)
  | None => Regular (basePrice item)
  end.

(** *** The total of the customization dialog *)

Definition calculatePrice (item : MenuItem)
    (selectedVariation : option Variation)
    (selectedAddOns : list SelectedAddOn) : Z :=
  let price := effective item in
  let price := match selectedVariation with
               | Some v => effective item + v_price v
               | None => price
               end in
  foldl (fun price addOn => price + sel_price addOn * sel_quantity addOn)
        price selectedAddOns.

(** [x || d] on numbers: [d] when [x] is undefined or zero. *)
Definition or_number (x : option Z) (d : Z) : Z :=
  match x with
  | Some n => if n =? 0 then d else n
  | None => d
  end.

(** The price printed beside a variation in the dialog:
    [(item.effectivePrice || item.basePrice) + variation.price]. *)
Definition variation_price_label (item : MenuItem) (variation : Variation) : Z :=
  or_number (effectivePrice item) (basePrice item) + v_price variation.

(** *** The selection of add-ons *)

(** [prev.findIndex(a => a.id === addOn.id)] and
    [selectedAddOns.find(a => a.id === addOn.id)], both at once. *)
Definition find_selected (addOn : AddOn) (selected : list SelectedAddOn)
  : option (nat * SelectedAddOn) :=
  list_find (fun a => sel_id a = ao_id addOn) selected.

Definition updateAddOnQuantity (addOn : AddOn) (quantity : Z)
    (prev : list SelectedAddOn) : list SelectedAddOn :=
  let existing := find_selected addOn prev in
  if bool_decide (quantity = 0)
  then filter (fun a => sel_id a ≠ ao_id addOn) prev
  else match existing with
       | Some (existingIndex, a) =>
           <[existingIndex := with_quantity a quantity]> prev
       | None => prev ++ [select addOn quantity]
       end.

(** The three buttons of an add-on in the dialog. Minus and plus are
    rendered when the add-on is selected, Add when it is not. *)
Inductive button := Add | Minus | Plus.

#[export] Instance button_eq_dec : EqDecision button.
Proof. solve_decision. Defined.

Definition rendered (addOn : AddOn) (selected : list SelectedAddOn)
  : list button :=
  match find_selected addOn selected with
  | Some _ => [Minus; Plus]
  | None => [Add]
  end.

(** The [onClick] handlers. *)
Definition on_click (b : button) (addOn : AddOn)
    (selected : list SelectedAddOn) : list SelectedAddOn :=
  let current := snd <$> find_selected addOn selected in
  match b with
  | Add => updateAddOnQuantity addOn 1 selected
  | Minus =>
      updateAddOnQuantity addOn
        (or_number (sel_quantity <$> current) 1 - 1) selected
  | Plus =>
      updateAddOnQuantity addOn
        (or_number (sel_quantity <$> current) 0 + 1) selected
  end.

(** A click on a button of an add-on; [None] when that button is not on the
    screen. *)
Definition press (c : button * AddOn) (selected : list SelectedAddOn)
  : option (list SelectedAddOn) :=
  if bool_decide (c.1 ∈ rendered c.2 selected)
  then Some (on_click c.1 c.2 selected)
  else None.

(** A sequence of clicks, from the left. *)
Definition presses (cs : list (button * AddOn))
    (selected : list SelectedAddOn) : option (list SelectedAddOn) :=
  foldl (fun st c => st ≫= press c) (Some selected) cs.

(** *** Handing the customized item to the cart *)

(** [Array(n).fill(x)]: a RangeError ([None]) unless [n] is a valid array
    length. *)
Definition Array_fill {A} (n : Z) (x : A) : option (list A) :=
  if (0 <=? n) && (n <? 2 ^ 32) then Some (replicate (Z.to_nat n) x)
  else None.

(** [selectedAddOns.flatMap(addOn =>
       Array(addOn.quantity).fill({ ...addOn, quantity: undefined }))]. *)
Definition addOnsForCart (selectedAddOns : list SelectedAddOn)
  : option (list AddOn) :=
  @concat AddOn <$>
    mapM (fun addOn => Array_fill (sel_quantity addOn) (without_quantity addOn))
         selectedAddOns.

(** The call [onAddToCart(item, quantity, variation, addOns)]. *)
Record cart_call := MkCartCall {
  call_item : MenuItem;
  call_quantity : Z;
  call_variation : option Variation;
  call_addOns : option (list AddOn) }.

(** The state of the dialog. *)
Record dialog := MkDialog {
  showCustomization : bool;
  chosenVariation : option Variation;
  chosenAddOns : list SelectedAddOn }.

(** [handleCustomizedAddToCart]: the call to the cart and the state after
    it; [None] when the expansion of the add-ons throws, before anything is
    called or set. *)
Definition handleCustomizedAddToCart (item : MenuItem) (st : dialog)
  : option (cart_call * dialog) :=
  addOnsForCart (chosenAddOns st) ≫= fun forCart =>
  Some (MkCartCall item 1 (chosenVariation st) (Some forCart),
        MkDialog false (chosenVariation st) []).

(** [item.variations?.length || item.addOns?.length]. *)
Definition customizable (item : MenuItem) : bool :=
  match variations item with
  | Some (_ :: _) => true
  | _ => match addOns item with
         | Some (_ :: _) => true
         | _ => false
         end
  end.

(** [handleAddToCart]: open the dialog, or add the plain item. *)
Definition handleAddToCart (item : MenuItem) (st : dialog)
  : option cart_call * dialog :=
  if customizable item
  then (None, MkDialog true (chosenVariation st) (chosenAddOns st))
  else (Some (MkCartCall item 1 None None), st).

(** The property names that every object inherits. At one of them
    [groups[category]] is not undefined in the empty object, no array is
    stored, and [groups[category].push] is not a function. *)
Definition inherited : list string :=
  ["constructor"; "__proto__"; "hasOwnProperty"; "isPrototypeOf";
   "propertyIsEnumerable"; "toLocaleString"; "toString"; "valueOf";
   "__defineGetter__"; "__defineSetter__"; "__lookupGetter__";
   "__lookupSetter__"]%string.

(** One step of the reduction; [None] for the TypeError. *)
Definition group_step (groups : gmap string (list AddOn)) (addOn : AddOn)
  : option (gmap string (list AddOn)) :=
  let category := ao_category addOn in
  if bool_decide (category ∈ inherited) then None
  else Some (<[category := default [] (groups !! category) ++ [addOn]]> groups).

Definition group_by_category (l : list AddOn)
  : option (gmap string (list AddOn)) :=
  foldl (fun st addOn => st ≫= fun groups => group_step groups addOn)
        (Some ∅) l.

(** [item.addOns?.reduce(...)]: undefined (the outer [None]) without
    add-ons. *)
Definition groupedAddOns (item : MenuItem)
  : option (option (gmap string (list AddOn))) :=
  group_by_category <$> addOns item.



(** A selection in which no add-on occurs twice and every quantity is at
    least one and at most [n]. *)
Definition tidy (n : Z) (selected : list SelectedAddOn) : Prop :=
  NoDup (sel_id <$> selected)
  /\ Forall (fun a => 1 <= sel_quantity a <= n) selected.

End Card.

Module CardSample.
Import Card.

Definition treats : AddOn := MkAddOn "a1" "Treats" 50 "Extras" None.
Definition ribbon : AddOn := MkAddOn "a2" "Ribbon" 20 "Wrapping" None.


(** Treats twice and a ribbon, then the ribbon taken back. *)
Definition clicks : list (button * AddOn) :=
  [(Add, treats); (Add, ribbon); (Plus, treats); (Minus, ribbon)].

Definition chosen : list SelectedAddOn := [select treats 2].

End CardSample.

(** ** The password form: the component PasswordChange *)

Module PasswordChange.

(** A string of the page: its UTF-16 code units. [length], [===] and the
    character classes of the regular expressions all work on code units. *)
Definition js_string := list N.

(** [[A-Z]], [[a-z]], [[0-9]]. *)
Definition uppercase (c : N) : bool := ((65 <=? c) && (c <=? 90))%N.
Definition lowercase (c : N) : bool := ((97 <=? c) && (c <=? 122))%N.
Definition digit (c : N) : bool := ((48 <=? c) && (c <=? 57))%N.

(** The class of the special characters, in the order of the source:
    exclamation mark, at, hash, dollar, percent, caret, ampersand, asterisk,
    the parentheses, comma, full stop, question mark, double quote, colon,
    the braces, bar, less than, greater than. *)
Definition special_units : list N :=
  [33; 64; 35; 36; 37; 94; 38; 42; 40; 41; 44; 46; 63; 34; 58; 123; 125;
   124; 60; 62]%N.

Definition special (c : N) : bool := bool_decide (c ∈ special_units).

(** [/[...]/.test(password)]: some code unit is in the class. *)
Definition test (class : N -> bool) (password : js_string) : bool :=
  existsb class password.

Record validation := MkValidation { valid : bool; message : string }.

Definition validatePassword (password : js_string) : validation :=
  if (length password <? 8)%nat
  then MkValidation false "Password must be at least 8 characters long"
  else if negb (test uppercase password)
  then MkValidation false
         "Password must contain at least one uppercase letter"
  else if negb (test lowercase password)
  then MkValidation false
         "Password must contain at least one lowercase letter"
  else if negb (test digit password)
  then MkValidation false "Password must contain at least one number"
  else if negb (test special password)
  then MkValidation false
         "Password must contain at least one special character"
  else MkValidation true ""%string.

Record strength_display := MkStrength {
  strength : Z; label : string; color : string }.

(** [if (b) strength++]. *)
Definition incr_if (b : bool) (strength : Z) : Z :=
  if b then strength + 1 else strength.

Definition getPasswordStrength (password : js_string) : strength_display :=
  if (length password =? 0)%nat then MkStrength 0 ""%string ""%string
  else
    let strength := 0 in
    let strength := incr_if (8 <=? length password)%nat strength in
    let strength := incr_if (test uppercase password) strength in
    let strength := incr_if (test lowercase password) strength in
    let strength := incr_if (test digit password) strength in
    let strength := incr_if (test special password) strength in
    if strength <=? 2 then MkStrength strength "Weak" "bg-red-500"
    else if strength <=? 3 then MkStrength strength "Fair" "bg-yellow-500"
    else if strength <=? 4 then MkStrength strength "Good" "bg-blue-500"
    else MkStrength strength "Strong" "bg-green-500".

(** What [await changePassword(newPassword)] can do: resolve without an
    error, resolve with an error, or throw. *)
Inductive auth_reply :=
| Auth_ok
| Auth_error (error_message : string)
| Auth_throws.

(** The state of the form that [handleSubmit] reads and sets. *)
Record form := MkForm {
  currentPassword : js_string;
  newPassword : js_string;
  confirmPassword : js_string;
  error : string;
  success : string }.

Definition setError (msg : string) (f : form) : form :=
  MkForm (currentPassword f) (newPassword f) (confirmPassword f)
         msg (success f).

Definition setSuccess (msg : string) (f : form) : form :=
  MkForm (currentPassword f) (newPassword f) (confirmPassword f)
         (error f) msg.

(** [setCurrentPassword(e.target.value)], typing into the first field. *)
Definition setCurrentPassword (s : js_string) (f : form) : form :=
  MkForm s (newPassword f) (confirmPassword f) (error f) (success f).

(** [!s] on a string: it is empty. *)
Definition blank (s : js_string) : bool := bool_decide (s = []).

(** [handleSubmit], up to the end of its [finally]: the form afterwards,
    and the passwords that were passed to [changePassword]. *)
Definition handleSubmit (changePassword : js_string -> auth_reply) (f : form)
  : form * list js_string :=
  let f := setSuccess ""%string (setError ""%string f) in
  if blank (currentPassword f) || blank (newPassword f)
     || blank (confirmPassword f)
  then (setError "Please fill in all fields" f, [])
  else if negb (bool_decide (newPassword f = confirmPassword f))
  then (setError "New passwords do not match" f, [])
  else if bool_decide (currentPassword f = newPassword f)
  then (setError "New password must be different from current password" f, [])
  else
    let validation := validatePassword (newPassword f) in
    if negb (valid validation) then (setError (message validation) f, [])
    else
      match changePassword (newPassword f) with
      | Auth_error msg => (setError msg f, [newPassword f])
      | Auth_ok =>
          (MkForm [] [] [] (error f) "Password changed successfully!",
           [newPassword f])
      | Auth_throws =>
          (setError "An unexpected error occurred. Please try again." f,
           [newPassword f])
      end.

End PasswordChange.

Module PasswordSample.
Import PasswordChange.

(** The code units of [Petshop#1] and of [Petshop#2]. *)
Definition petshop1 : js_string := [80; 101; 116; 115; 104; 111; 112; 35; 49]%N.
Definition petshop2 : js_string := [80; 101; 116; 115; 104; 111; 112; 35; 50]%N.
(** The code units of [old] and of [x]. *)
Definition old : js_string := [111; 108; 100]%N.
Definition x : js_string := [120]%N.

Definition filled (current : js_string) : form :=
  MkForm current petshop1 petshop1 ""%string ""%string.

End PasswordSample.

(** * Properties *)

(** ** Stock decrement *)

Lemma coalesce_track_true (x : option bool) :
  coalesce x false = true <-> x = Some true.
Proof. destruct x as [[]|]; simpl; split; congruence. Qed.

Lemma sync_untracked (OLD : option menu_item) (NEW : menu_item) :
  track_inventory NEW ≠ Some true ->
  sync_menu_item_availability OLD NEW = NEW.
Proof.
  intros H. unfold sync_menu_item_availability.
  destruct (coalesce (track_inventory NEW) false) eqn:E; [|done].
  apply coalesce_track_true in E. done.
Qed.

Lemma sync_mi_id OLD NEW :
  mi_id (sync_menu_item_availability OLD NEW) = mi_id NEW.
Proof.
  unfold sync_menu_item_availability.
  repeat (case_match; simpl; try done).
Qed.

Lemma sync_track_inventory OLD NEW :
  track_inventory (sync_menu_item_availability OLD NEW) = track_inventory NEW.
Proof.
  unfold sync_menu_item_availability.
  repeat (case_match; simpl; try done).
Qed.

Lemma sync_stock_quantity_tracked OLD NEW :
  tracked NEW ->
  stock_quantity (sync_menu_item_availability OLD NEW)
  = Some (Z.max (coalesce (stock_quantity NEW) 0) 0).
Proof.
  unfold tracked, sync_menu_item_availability. intros ->. simpl.
  repeat (case_match; simpl; try done).
Qed.

Lemma decrement_row_untracked row entry :
  ¬ tracked row -> decrement_row row entry = row.
Proof.
  unfold tracked, decrement_row, update_row, decrement_where. intros H.
  destruct (track_inventory row) as [[]|]; simpl; done.
Qed.

Lemma decrement_row_other row entry :
  mi_id row ≠ entry.1 -> decrement_row row entry = row.
Proof.
  unfold decrement_row, update_row, decrement_where. intros H.
  rewrite (bool_decide_eq_false_2 _ H), andb_false_r. done.
Qed.

Lemma decrement_row_hit row entry :
  tracked row -> mi_id row = entry.1 ->
  stock_quantity (decrement_row row entry)
  = Some (Z.max (current_quantity row - entry.2) 0).
Proof.
  unfold decrement_row, update_row, decrement_where, tracked. intros Ht Hid.
  rewrite Ht, (bool_decide_eq_true_2 _ Hid). simpl.
  rewrite sync_stock_quantity_tracked by (unfold tracked; simpl; done).
  simpl. unfold greatest, current_quantity. f_equal. lia.
Qed.

Lemma decrement_row_mi_id row entry : mi_id (decrement_row row entry) = mi_id row.
Proof.
  unfold decrement_row, update_row. case_match; [|done].
  by rewrite sync_mi_id.
Qed.

Lemma decrement_row_track row entry :
  track_inventory (decrement_row row entry) = track_inventory row.
Proof.
  unfold decrement_row, update_row. case_match; [|done].
  by rewrite sync_track_inventory.
Qed.

Lemma decrement_row_nonneg row entry :
  0 <= current_quantity row -> 0 <= current_quantity (decrement_row row entry).
Proof.
  intros H.
  destruct (decide (tracked row)) as [Ht|Ht];
    [|by rewrite decrement_row_untracked].
  destruct (decide (mi_id row = entry.1)) as [Hid|Hid];
    [|by rewrite decrement_row_other].
  unfold current_quantity at 1.
  rewrite decrement_row_hit by done. simpl. lia.
Qed.

Lemma row_kept_refl row : row_kept row row.
Proof. by repeat split. Qed.

Lemma row_kept_step row r entry :
  row_kept row r -> row_kept row (decrement_row r entry).
Proof.
  intros (Hid & Ht & Hu & Hn). repeat split.
  - by rewrite decrement_row_mi_id.
  - by rewrite decrement_row_track.
  - intros H. rewrite (Hu H). by apply decrement_row_untracked.
  - intros H. by apply decrement_row_nonneg, Hn.
Qed.

Lemma row_kept_items items : forall row r,
  row_kept row r -> row_kept row (decrement_row_items items r).
Proof.
  induction items as [|e items IH]; intros row r H; simpl; [done|].
  apply IH. by apply row_kept_step.
Qed.

Lemma row_kept_calls calls : forall row r,
  row_kept row r -> row_kept row (decrement_row_calls calls r).
Proof.
  induction calls as [|c calls IH]; intros row r H; simpl; [done|].
  apply IH. by apply row_kept_items.
Qed.

Lemma decrement_menu_item_stock_map items : forall tbl,
  decrement_menu_item_stock items tbl = map (decrement_row_items items) tbl.
Proof.
  induction items as [|e items IH]; intros tbl; simpl.
  - by rewrite map_id.
  - unfold decrement_menu_item_stock in *. simpl. rewrite IH.
    unfold decrement_entry, update_menu_items. rewrite map_map. done.
Qed.

Lemma decrement_calls_map calls : forall tbl,
  decrement_calls calls tbl = map (decrement_row_calls calls) tbl.
Proof.
  induction calls as [|c calls IH]; intros tbl; simpl.
  - by rewrite map_id.
  - unfold decrement_calls in *. simpl. rewrite IH.
    rewrite decrement_menu_item_stock_map, map_map. done.
Qed.

(** C1. Along every sequence of calls of the decrement, and for the
    statement of one more entry after it: a tracked row the entry names
    gets the quantity [max (current - requested) 0]; a row that does not
    track its stock is never changed; no row changes its identifier or its
    tracking flag; and a quantity that is not negative at the start is not
    negative at any later point. *)
Theorem decrement_stock_never_negative
    (calls : list (list stock_entry)) (entry : stock_entry)
    (tbl : list menu_item) (i : nat) (row : menu_item)
    (Hrow : tbl !! i = Some row) :
  exists before after : menu_item,
    decrement_calls calls tbl !! i = Some before
    /\ decrement_entry (decrement_calls calls tbl) entry !! i = Some after
    /\ mi_id before = mi_id row
    /\ track_inventory before = track_inventory row
    /\ (¬ tracked row -> before = row /\ after = row)
    /\ (tracked row -> mi_id row = entry.1 ->
        stock_quantity after
        = Some (Z.max (current_quantity before - entry.2) 0)
        /\ 0 <= current_quantity after)
    /\ (mi_id row ≠ entry.1 -> after = before)
    /\ (0 <= current_quantity row ->
        0 <= current_quantity before /\ 0 <= current_quantity after).
Proof.
  exists (decrement_row_calls calls row),
         (decrement_row (decrement_row_calls calls row) entry).
  pose proof (row_kept_calls calls row row (row_kept_refl row))
    as (Hid & Ht & Hu & Hn).
  assert (Hb : decrement_calls calls tbl !! i
               = Some (decrement_row_calls calls row)).
  { rewrite decrement_calls_map.
    change (map ?f ?l) with (f <$> l). by rewrite list_lookup_fmap, Hrow. }
  split; [done|]. split.
  { unfold decrement_entry, update_menu_items.
    change (map ?f ?l) with (f <$> l). by rewrite list_lookup_fmap, Hb. }
  split; [done|]. split; [done|]. split.
  { intros H. split; [by apply Hu|].
    rewrite (Hu H). by apply decrement_row_untracked. }
  split.
  { intros H1 H2.
    assert (Hs : stock_quantity (decrement_row (decrement_row_calls calls row) entry)
                 = Some (Z.max (current_quantity (decrement_row_calls calls row) - entry.2) 0)).
    { apply decrement_row_hit; unfold tracked; congruence. }
    split; [done|]. unfold current_quantity at 1. rewrite Hs. simpl. lia. }
  split.
  { intros H. apply decrement_row_other. congruence. }
  intros H. split; [by apply Hn|]. by apply decrement_row_nonneg, Hn.
Qed.

Lemma decrement_stock_never_negative_witness :
  [Sample.dog_food] !! 0%nat = Some Sample.dog_food
  /\ exists after : menu_item,
       decrement_entry
         (decrement_calls [[("A1"%string, 3)]; [("A1"%string, 4)]]
                          [Sample.dog_food])
         ("A1"%string, 5) !! 0%nat = Some after
       /\ stock_quantity after = Some 0.
Proof.
  split; [reflexivity|].
  destruct (decrement_stock_never_negative
              [[("A1"%string, 3)]; [("A1"%string, 4)]] ("A1"%string, 5)
              [Sample.dog_food] 0%nat Sample.dog_food eq_refl)
    as (before & after & Hb & Ha & _ & _ & _ & Hhit & _).
  exists after. split; [exact Ha|].
  vm_compute in Hb. injection Hb as <-.
  destruct (Hhit eq_refl eq_refl) as [Hs _]. rewrite Hs. reflexivity.
Defined.

(** On the whole table: quantities that are not negative stay so along
    any sequence of calls. *)
Corollary decrement_calls_nonneg (calls : list (list stock_entry))
    (tbl : list menu_item) :
  Forall (fun r => 0 <= current_quantity r) tbl ->
  Forall (fun r => 0 <= current_quantity r) (decrement_calls calls tbl).
Proof.
  rewrite decrement_calls_map, !List.Forall_forall. intros H r Hr.
  apply in_map_iff in Hr as (row & <- & Hrow).
  destruct (row_kept_calls calls row row (row_kept_refl row))
    as (_ & _ & _ & Hn).
  apply Hn, H, Hrow.
Qed.

(** A call that names an item that does not track its stock changes
    nothing. *)
Example untracked_item_is_not_decremented :
  decrement_menu_item_stock [("B7"%string, 3)] [Sample.leash] = [Sample.leash].
Proof. reflexivity. Qed.

(** ** Availability trigger *)

Lemma sync_tracked_shape (OLD : option menu_item) (NEW : menu_item) :
  tracked NEW ->
  let q := Z.max (coalesce (stock_quantity NEW) 0) 0 in
  let t := Z.max (coalesce (low_stock_threshold NEW) 0) 0 in
  let changed :=
    is_distinct_from (old_col OLD stock_quantity) (Some q)
    || is_distinct_from (old_col OLD low_stock_threshold) (Some t)
    || is_distinct_from (old_col OLD track_inventory) (Some true) in
  sync_menu_item_availability OLD NEW
  = MenuItem (mi_id NEW) (mi_name NEW) (Some true) (Some q) (Some t)
             (if changed then Some (negb (q <=? t)) else available NEW).
Proof.
  unfold tracked, sync_menu_item_availability. intros Ht. rewrite Ht. simpl.
  rewrite Ht. unfold greatest.
  destruct (_ || _); [destruct (_ <=? _)|];
    unfold set_available, set_low_stock_threshold, set_stock_quantity; simpl;
    rewrite ?Ht; reflexivity.
Qed.

(** The trigger leaves tracked rows with a quantity and a threshold that are
    not NULL and not negative. *)
Lemma sync_clamps (OLD : option menu_item) (NEW : menu_item) :
  tracked NEW ->
  exists q t : Z,
    stock_quantity (sync_menu_item_availability OLD NEW) = Some q
    /\ low_stock_threshold (sync_menu_item_availability OLD NEW) = Some t
    /\ 0 <= q /\ 0 <= t.
Proof.
  intros Ht. rewrite (sync_tracked_shape OLD NEW Ht). simpl.
  eexists _, _. repeat split; lia.
Qed.



(** A write that touches neither the stock columns nor the availability of
    a tracked row the trigger has stored before leaves the availability as
    it was. *)
Lemma availability_survives_unrelated_write (old new : menu_item) :
  tracked old ->
  (exists q, stock_quantity old = Some q /\ 0 <= q) ->
  (exists t, low_stock_threshold old = Some t /\ 0 <= t) ->
  stock_quantity new = stock_quantity old ->
  low_stock_threshold new = low_stock_threshold old ->
  track_inventory new = track_inventory old ->
  available new = available old ->
  available (sync_menu_item_availability (Some old) new) = available old.
Proof.
  intros Ht (q & Hq & Hq0) (t & Hth & Ht0) Es Et Ef Ea.
  assert (Hnew : tracked new) by (unfold tracked in *; congruence).
  rewrite (sync_tracked_shape (Some old) new Hnew). simpl.
  rewrite Es, Et, Hq, Hth, Ht. simpl.
  rewrite !Z.max_l by lia. unfold is_distinct_from.
  rewrite !bool_decide_eq_false_2 by (intros H; by apply H). done.
Qed.


(** ** The stock check of the hook *)

Lemma requested_total_cons (ci : CartItem) (cart : list CartItem) (id : string) :
  requested_total (ci :: cart) id
  = (if refers id ci then quantity ci else 0) + requested_total cart id.
Proof.
  unfold requested_total. simpl. destruct (refers id ci); simpl; lia.
Qed.

Lemma requested_total_unreferenced (cart : list CartItem) (id : string) :
  existsb (refers id) cart = false -> requested_total cart id = 0.
Proof.
  induction cart as [|ci cart IH]; [reflexivity|].
  cbn [existsb]. rewrite orb_false_iff. intros [Hr Hc].
  rewrite requested_total_cons, Hr, (IH Hc). reflexivity.
Qed.

Lemma stockAdjustments_fold (cart : list CartItem) :
  forall (acc : gmap string Z) (id : string),
    foldl (fun acc item =>
             <[catalog_id item := default 0 (acc !! catalog_id item)
                                  + quantity item]> acc) acc cart !! id
    = if existsb (refers id) cart
      then Some (default 0 (acc !! id) + requested_total cart id)
      else acc !! id.
Proof.
  induction cart as [|ci cart IH]; intros acc id; [reflexivity|].
  cbn [foldl existsb]. rewrite IH, requested_total_cons.
  destruct (decide (catalog_id ci = id)) as [E|E].
  - assert (Hr : refers id ci = true) by (by apply bool_decide_eq_true_2).
    rewrite Hr. subst id. rewrite lookup_insert_eq. cbn [orb].
    destruct (existsb _ cart) eqn:Ex; f_equal; simpl; [lia|].
    rewrite (requested_total_unreferenced _ _ Ex). lia.
  - assert (Hr : refers id ci = false) by (by apply bool_decide_eq_false_2).
    rewrite Hr, lookup_insert_ne by done. cbn [orb].
    destruct (existsb _ cart); [f_equal; lia|reflexivity].
Qed.

(** The entry of [stockAdjustments] for a catalog item is the sum of the
    quantities of the cart lines that refer to it. *)
Lemma stockAdjustments_lookup (cart : list CartItem) (id : string) :
  stockAdjustments cart !! id
  = if existsb (refers id) cart then Some (requested_total cart id) else None.
Proof.
  unfold stockAdjustments. rewrite stockAdjustments_fold, lookup_empty.
  destruct (existsb _ cart); [f_equal; simpl; lia|reflexivity].
Qed.

Lemma stockAdjustments_Some (cart : list CartItem) (id : string) (q : Z) :
  stockAdjustments cart !! id = Some q ->
  q = requested_total cart id
  /\ exists ci, In ci cart /\ catalog_id ci = id.
Proof.
  rewrite stockAdjustments_lookup.
  destruct (existsb (refers id) cart) eqn:E; [|discriminate].
  intros [= <-]. split; [reflexivity|].
  apply existsb_exists in E as (ci & Hin & Hr).
  exists ci. split; [done|]. by apply bool_decide_eq_true in Hr.
Qed.

Lemma stockedItemIds_spec (cart : list CartItem) (id : string) :
  id ∈ stockedItemIds cart <-> is_Some (stockAdjustments cart !! id).
Proof.
  unfold stockedItemIds. rewrite list_elem_of_fmap. split.
  - intros ([k v] & -> & H). apply elem_of_map_to_list in H. by eexists.
  - intros [v H]. exists (id, v). split; [done|]. by apply elem_of_map_to_list.
Qed.

Lemma insufficient_spec (cart : list CartItem) (row : menu_item) :
  insufficient cart row = true
  <-> tracked row
      /\ (exists ci, In ci cart /\ catalog_id ci = mi_id row)
      /\ current_quantity row < requested_total cart (mi_id row).
Proof.
  unfold insufficient, tracked, current_quantity.
  rewrite andb_true_iff, coalesce_track_true, stockAdjustments_lookup.
  destruct (existsb (refers (mi_id row)) cart) eqn:E.
  - rewrite Z.ltb_lt. apply existsb_exists in E as (ci & Hin & Hr).
    apply bool_decide_eq_true in Hr. split; [|tauto].
    intros [? ?]. split; [done|]. split; [|done]. by exists ci.
  - split; [intros [_ ?]; discriminate|].
    intros (_ & (ci & Hin & Hr) & _).
    assert (existsb (refers (mi_id row)) cart = true); [|congruence].
    apply existsb_exists. exists ci. split; [done|].
    by apply bool_decide_eq_true.
Qed.

Lemma inventorySnapshot_In (cart : list CartItem) (tbl : list menu_item)
    (row : menu_item) :
  In row (inventorySnapshot cart tbl)
  <-> In row tbl /\ exists ci, In ci cart /\ catalog_id ci = mi_id row.
Proof.
  unfold inventorySnapshot. rewrite filter_In, bool_decide_eq_true,
    stockedItemIds_spec, stockAdjustments_lookup.
  destruct (existsb (refers (mi_id row)) cart) eqn:E.
  - apply existsb_exists in E as (ci & Hin & Hr).
    apply bool_decide_eq_true in Hr. split; [|intros [? _]; split; eauto].
    intros [? _]. split; [done|]. by exists ci.
  - split; [intros [_ [? ?]]; discriminate|].
    intros (_ & ci & Hin & Hr).
    assert (existsb (refers (mi_id row)) cart = true); [|congruence].
    apply existsb_exists. exists ci. split; [done|].
    by apply bool_decide_eq_true.
Qed.

(** The stock check passes exactly when no tracked catalog item the cart
    refers to has less in stock than the cart asks for in total. *)
Lemma insufficientItem_None (cart : list CartItem) (tbl : list menu_item) :
  insufficientItem cart tbl = None
  <-> forall row, In row tbl -> tracked row ->
        (exists ci, In ci cart /\ catalog_id ci = mi_id row) ->
        requested_total cart (mi_id row) <= current_quantity row.
Proof.
  unfold insufficientItem. split.
  - intros Hnone row Hin Ht Hci.
    destruct (Z.le_gt_cases (requested_total cart (mi_id row))
                            (current_quantity row)) as [|Hlt]; [done|].
    assert (Hs : In row (inventorySnapshot cart tbl))
      by (by apply inventorySnapshot_In).
    pose proof (find_none _ _ Hnone row Hs) as Hf.
    assert (insufficient cart row = true); [|congruence].
    apply insufficient_spec. repeat split; try done; lia.
  - intros H. destruct (List.find _ _) as [row|] eqn:E; [|done].
    apply find_some in E as [Hs Hi].
    apply inventorySnapshot_In in Hs as [Hin Hci].
    apply insufficient_spec in Hi as (Ht & _ & Hlt).
    specialize (H row Hin Ht Hci). lia.
Qed.

Lemma insufficientItem_Some (cart : list CartItem) (tbl : list menu_item)
    (row : menu_item) :
  insufficientItem cart tbl = Some row ->
  In row tbl /\ tracked row
  /\ current_quantity row < requested_total cart (mi_id row)
  /\ exists ci, offending cart row = Some ci
                /\ In ci cart /\ catalog_id ci = mi_id row.
Proof.
  unfold insufficientItem. intros E. apply find_some in E as [Hs Hi].
  apply inventorySnapshot_In in Hs as [Hin (ci & Hci & Hid)].
  apply insufficient_spec in Hi as (Ht & _ & Hlt).
  repeat split; try done.
  unfold offending. destruct (List.find _ cart) as [ci'|] eqn:E.
  - apply find_some in E as [? Hr]. apply bool_decide_eq_true in Hr.
    by exists ci'.
  - pose proof (find_none _ _ E ci Hci) as Hf.
    by apply bool_decide_eq_false in Hf.
Qed.

(** ** The writes of the hook *)

Lemma insert_order_inr env now NEW db db1 ord :
  insert_order env now NEW db = inr (db1, ord) ->
  orders_insert_fails env = false
  /\ ord = with_defaults env now NEW
  /\ prevent_spam_orders_per_ip now (orders db) ord = None
  /\ ¬ In (o_id ord) (map o_id (orders db))
  /\ db1 = MkDB (menu_items db) (orders db ++ [ord]) (order_items db).
Proof.
  unfold insert_order.
  destruct (orders_insert_fails env); [discriminate|].
  destruct (prevent_spam_orders_per_ip _ _ _) eqn:Et; [discriminate|].
  case_bool_decide as Hpk; [discriminate|].
  intros [= <- <-]. repeat split; try done.
  intros H. apply Hpk. by apply list_elem_of_In.
Qed.

Lemma insert_order_inl env now NEW db e :
  insert_order env now NEW db = inl e ->
  (e = StorageFailure
   /\ (orders_insert_fails env = true
       \/ (prevent_spam_orders_per_ip now (orders db)
             (with_defaults env now NEW) = None
           /\ In (new_order_id env) (map o_id (orders db)))))
  \/ (orders_insert_fails env = false
      /\ exists x, e = Raised x
         /\ prevent_spam_orders_per_ip now (orders db)
              (with_defaults env now NEW) = Some x).
Proof.
  unfold insert_order.
  destruct (orders_insert_fails env); [intros [= <-]; left; auto|].
  destruct (prevent_spam_orders_per_ip _ _ _) as [x|] eqn:Et.
  - intros [= <-]. right. split; [done|]. by exists x.
  - case_bool_decide as Hpk; [|discriminate].
    intros [= <-]. left. split; [done|]. right. split; [done|].
    by apply list_elem_of_In in Hpk.
Qed.


Lemma insert_order_items_Some env rows db db2 :
  insert_order_items env rows db = Some db2 ->
  order_items_insert_fails env = false
  /\ (forall r, In r rows -> 0 < oi_quantity r)
  /\ db2 = MkDB (menu_items db) (orders db) (order_items db ++ rows).
Proof.
  unfold insert_order_items.
  destruct (order_items_insert_fails env); [discriminate|].
  destruct (forallb _ rows) eqn:E; [|discriminate].
  intros [= <-]. repeat split; try done.
  intros r Hr. rewrite forallb_forall in E. specialize (E r Hr).
  apply andb_true_iff in E as [E _]. by apply Z.ltb_lt in E.
Qed.


(** The cases of one run of the hook, phase by phase. *)
Ltac createOrder_cases short e db1 ord db2 db3 Hcheck Hhead Hlines Hdec :=
  unfold createOrder;
  destruct (insufficientItem _ _) as [short|] eqn:Hcheck;
  [|destruct (insert_order _ _ _ _) as [e|[db1 ord]] eqn:Hhead;
    [|destruct (insert_order_items _ _ _) as [db2|] eqn:Hlines;
      [destruct (rpc_decrement _ _ _) as [db3|] eqn:Hdec|]]];
  cbn [report_decrement result db_after requests].

Lemma rpc_decrement_Some env entries db db3 :
  rpc_decrement env entries db = Some db3 ->
  decrement_fails env = false
  /\ db3 = MkDB (decrement_menu_item_stock entries (menu_items db))
                (orders db) (order_items db).
Proof.
  unfold rpc_decrement. destruct (decrement_fails env); [discriminate|].
  by intros [= <-].
Qed.

Lemma rpc_decrement_None env entries db :
  rpc_decrement env entries db = None <-> decrement_fails env = true.
Proof.
  unfold rpc_decrement. destruct (decrement_fails env); split; done.
Qed.

(** What a run that created an order has persisted. *)
Lemma createOrder_created env now clientIp payload db ord :
  result (createOrder env now clientIp payload db) = inr ord ->
  insufficientItem (items payload) (menu_items db) = None
  /\ ord = with_defaults env now (order_values clientIp payload)
  /\ prevent_spam_orders_per_ip now (orders db) ord = None
  /\ ¬ In (o_id ord) (map o_id (orders db))
  /\ orders (db_after (createOrder env now clientIp payload db))
     = orders db ++ [ord]
  /\ order_items (db_after (createOrder env now clientIp payload db))
     = order_items db ++ orderItems now ord payload
  /\ (forall ci, In ci (items payload) -> 0 < quantity ci).
Proof.
  createOrder_cases short e db1 ord' db2 db3 Hcheck Hhead Hlines Hdec;
    try discriminate; intros [= <-];
    apply insert_order_inr in Hhead as (_ & Hord & Ht & Hpk & ->);
    apply insert_order_items_Some in Hlines as (_ & Hq & ->);
    [apply rpc_decrement_Some in Hdec as [_ ->]|].
  all: repeat split; try done.
  all: intros ci Hci; apply (Hq (order_item_of now ord' ci));
    unfold orderItems; by apply in_map.
Qed.

(** ** Insufficient stock *)

(** C6, amended. When a tracked row has less in stock than the cart asks
    for, the submission fails with [InsufficientStock] carrying the name of
    a cart line that refers to a tracked row with such a shortfall, and
    nothing else; no request follows the stock query and the store, orders,
    line items and stock, is unchanged. *)
Theorem insufficient_stock_rejects_without_effect
    (env : Env) (now : Z) (clientIp : option string) (payload : OrderPayload)
    (db : DB) (row : menu_item) (requested : Z)
    (Hrow : In row (menu_items db))
    (Htracked : tracked row)
    (Hrequested : stockAdjustments (items payload) !! mi_id row = Some requested)
    (Hshort : current_quantity row < requested) :
  exists (short : menu_item) (ci : CartItem),
    In short (menu_items db) /\ tracked short
    /\ current_quantity short < requested_total (items payload) (mi_id short)
    /\ In ci (items payload) /\ catalog_id ci = mi_id short
    /\ result (createOrder env now clientIp payload db)
       = inl (InsufficientStock (Some (ci_name ci)))
    /\ db_after (createOrder env now clientIp payload db) = db
    /\ requests (createOrder env now clientIp payload db) = [Select_inventory].
Proof.
  apply stockAdjustments_Some in Hrequested as [-> Hci].
  destruct (insufficientItem (items payload) (menu_items db)) as [short|] eqn:E.
  - destruct (insufficientItem_Some _ _ _ E)
      as (Hin & Ht & Hlt & ci & Hoff & Hci' & Hid).
    exists short, ci. unfold createOrder. rewrite E, Hoff. simpl.
    repeat split; done.
  - pose proof (proj1 (insufficientItem_None _ _) E row Hrow Htracked Hci). lia.
Qed.

Lemma insufficient_stock_rejects_without_effect_witness :
  In (set_stock_quantity Sample.dog_food (Some 1)) (menu_items (Sample.store 1))
  /\ tracked (set_stock_quantity Sample.dog_food (Some 1))
  /\ stockAdjustments [Sample.line 2] !! "A1"%string = Some 2
  /\ current_quantity (set_stock_quantity Sample.dog_food (Some 1)) < 2
  /\ db_after (createOrder (Sample.fine Sample.uuid1) 1000 None
                 (Sample.jane [Sample.line 2] 50000) (Sample.store 1))
     = Sample.store 1.
Proof.
  assert (H1 : In (set_stock_quantity Sample.dog_food (Some 1))
                  (menu_items (Sample.store 1))) by (left; reflexivity).
  assert (H2 : tracked (set_stock_quantity Sample.dog_food (Some 1)))
    by reflexivity.
  assert (H3 : stockAdjustments (items (Sample.jane [Sample.line 2] 50000))
               !! mi_id (set_stock_quantity Sample.dog_food (Some 1)) = Some 2)
    by (vm_compute; reflexivity).
  assert (H4 : current_quantity (set_stock_quantity Sample.dog_food (Some 1)) < 2)
    by (vm_compute; reflexivity).
  split; [exact H1|]. split; [exact H2|]. split; [exact H3|].
  split; [exact H4|].
  destruct (insufficient_stock_rejects_without_effect
              (Sample.fine Sample.uuid1) 1000 None
              (Sample.jane [Sample.line 2] 50000) (Sample.store 1)
              (set_stock_quantity Sample.dog_food (Some 1)) 2 H1 H2 H3 H4)
    as (short & ci & _ & _ & _ & _ & _ & _ & Hdb & _).
  exact Hdb.
Defined.

(** C6 as stated fails. The error of a shortfall names the cart line and
    nothing else: with 1 unit in stock and with none, the same request for
    2 units fails with the same error, so the error does not tell how many
    units are left. *)
Lemma insufficient_stock_error_has_no_count :
  result (createOrder (Sample.fine Sample.uuid1) 1000 None
            (Sample.jane [Sample.line 2] 50000) (Sample.store 1))
  = inl (InsufficientStock (Some "Dog Food 1kg"%string))
  /\ result (createOrder (Sample.fine Sample.uuid1) 1000 None
               (Sample.jane [Sample.line 2] 50000) (Sample.store 0))
     = inl (InsufficientStock (Some "Dog Food 1kg"%string))
  /\ map current_quantity (menu_items (Sample.store 1)) = [1]
  /\ map current_quantity (menu_items (Sample.store 0)) = [0].
Proof. repeat split; vm_compute; reflexivity. Qed.

(** C7. The submission fails with [InsufficientStock] exactly when some
    tracked catalog item the cart refers to has less in stock than the sum
    of the quantities of all the cart lines that refer to it. *)
Theorem stock_check_compares_aggregate
    (env : Env) (now : Z) (clientIp : option string) (payload : OrderPayload)
    (db : DB) :
  (exists name, result (createOrder env now clientIp payload db)
                = inl (InsufficientStock name))
  <-> (exists row,
         In row (menu_items db) /\ tracked row
         /\ (exists ci, In ci (items payload) /\ catalog_id ci = mi_id row)
         /\ current_quantity row
            < requested_total (items payload) (mi_id row)).
Proof.
  split.
  - intros [name H].
    destruct (insufficientItem (items payload) (menu_items db))
      as [short|] eqn:E.
    + destruct (insufficientItem_Some _ _ _ E)
        as (Hin & Ht & Hlt & ci & _ & Hci & Hid).
      exists short. repeat split; try done. by exists ci.
    + revert H.
      createOrder_cases short e db1 ord db2 db3 Hcheck Hhead Hlines Hdec;
        try discriminate.
      destruct e as [[]|]; discriminate.
  - intros (row & Hin & Ht & Hci & Hlt).
    destruct (insufficientItem (items payload) (menu_items db))
      as [short|] eqn:E.
    + unfold createOrder. rewrite E. simpl. by eexists.
    + pose proof (proj1 (insufficientItem_None _ _) E row Hin Ht Hci). lia.
Qed.

Lemma stock_check_compares_aggregate_witness :
  requested_total [Sample.line_small 3; Sample.line_large 4] "A1" = 7
  /\ current_quantity (set_stock_quantity Sample.dog_food (Some 6)) = 6
  /\ exists name,
       result (createOrder (Sample.fine Sample.uuid1) 1000 None
                 (Sample.jane [Sample.line_small 3; Sample.line_large 4] 195000)
                 (Sample.store 6))
       = inl (InsufficientStock name).
Proof.
  split; [reflexivity|]. split; [reflexivity|].
  apply (proj2 (stock_check_compares_aggregate
                  (Sample.fine Sample.uuid1) 1000 None
                  (Sample.jane [Sample.line_small 3; Sample.line_large 4] 195000)
                  (Sample.store 6))).
  exists (set_stock_quantity Sample.dog_food (Some 6)).
  split; [left; reflexivity|]. split; [reflexivity|]. split.
  - exists (Sample.line_small 3). split; [left; reflexivity|reflexivity].
  - vm_compute. reflexivity.
Defined.

(** ** Header and line items *)


Lemma filter_none {A} (f : A -> bool) (l : list A) :
  (forall y, In y l -> f y = false) -> List.filter f l = [].
Proof.
  induction l as [|y l IH]; intros Hl; simpl; [done|].
  rewrite (Hl y) by (by left). apply IH. intros z Hz. apply Hl. by right.
Qed.

Lemma filter_all {A} (f : A -> bool) (l : list A) :
  (forall y, In y l -> f y = true) -> List.filter f l = l.
Proof.
  induction l as [|y l IH]; intros Hl; simpl; [done|].
  rewrite (Hl y) by (by left). f_equal. apply IH. intros z Hz. apply Hl.
  by right.
Qed.

(** Under the foreign key, a store holds no line item of an identifier that
    no order carries. *)
Lemma no_items_of_fresh_order (db : DB) (id : string) :
  foreign_key_holds db -> ¬ In id (map o_id (orders db)) ->
  forall r, In r (order_items db) -> bool_decide (order_id r = id) = false.
Proof.
  intros Hfk Hfresh r Hr. apply bool_decide_eq_false. intros <-.
  apply Hfresh. by apply Hfk.
Qed.





(** The same without any injected fault: a line of quantity 0 violates the
    constraint [CHECK (quantity > 0)] of [order_items]. *)
Lemma header_without_items_after_check_violation :
  result (createOrder (Sample.fine Sample.uuid1) 1000 None
            (Sample.jane [Sample.line 0] 0) (Sample.store 10))
  = inl PersistenceError
  /\ snd <$> order_with_items Sample.uuid1
       (db_after (createOrder (Sample.fine Sample.uuid1) 1000 None
                    (Sample.jane [Sample.line 0] 0) (Sample.store 10)))
     = Some [].
Proof. repeat split; vm_compute; reflexivity. Qed.

(** ** Order of the stock check and the rate limit *)

(** C5, amended. A submission that fails with [RateLimited] or
    [MissingIdentifier] has passed the stock check first: the rejection is
    raised by the trigger of the insert of the header, the second request
    of the run, after the stock query; no further request is sent and the
    store is unchanged. *)
Theorem rate_limit_is_raised_by_the_insert
    (env : Env) (now : Z) (clientIp : option string) (payload : OrderPayload)
    (db : DB)
    (Hrejected : result (createOrder env now clientIp payload db)
                 = inl RateLimited
                 \/ result (createOrder env now clientIp payload db)
                    = inl MissingIdentifier) :
  insufficientItem (items payload) (menu_items db) = None
  /\ (exists e, prevent_spam_orders_per_ip now (orders db)
                  (with_defaults env now (order_values clientIp payload))
                = Some e)
  /\ requests (createOrder env now clientIp payload db)
     = [Select_inventory; Insert_order]
  /\ db_after (createOrder env now clientIp payload db) = db.
Proof.
  revert Hrejected.
  createOrder_cases short e db1 ord db2 db3 Hcheck Hhead Hlines Hdec;
    intros [H|H]; try discriminate.
  all: apply insert_order_inl in Hhead
         as [[-> _]|(_ & x & -> & Hx)]; [discriminate|].
  all: repeat split; try done; by exists x.
Qed.

Lemma rate_limit_is_raised_by_the_insert_witness :
  result (createOrder (Sample.fine Sample.uuid1) 1000 None
            (Sample.submission "" [Sample.line 2] 50000) (Sample.store 10))
  = inl MissingIdentifier
  /\ requests (createOrder (Sample.fine Sample.uuid1) 1000 None
                 (Sample.submission "" [Sample.line 2] 50000)
                 (Sample.store 10))
     = [Select_inventory; Insert_order].
Proof.
  assert (H : result (createOrder (Sample.fine Sample.uuid1) 1000 None
                        (Sample.submission "" [Sample.line 2] 50000)
                        (Sample.store 10))
              = inl MissingIdentifier) by (vm_compute; reflexivity).
  split; [exact H|].
  exact (proj1 (proj2 (proj2 (rate_limit_is_raised_by_the_insert
           (Sample.fine Sample.uuid1) 1000 None
           (Sample.submission "" [Sample.line 2] 50000) (Sample.store 10)
           (or_intror H))))).
Defined.

(** C5 as stated fails. A submission without any identifier: the stock
    query has been sent before the insert raises; when the stock is short
    as well, the submission fails on the stock, not on the identifier; and
    a submission inside the cooldown of its contact number is rejected
    after its stock query as well. *)
Lemma stock_is_checked_before_the_rate_limit :
  result (createOrder (Sample.fine Sample.uuid1) 1000 None
            (Sample.submission "" [Sample.line 2] 50000) (Sample.store 10))
  = inl MissingIdentifier
  /\ In Select_inventory
        (requests (createOrder (Sample.fine Sample.uuid1) 1000 None
                     (Sample.submission "" [Sample.line 2] 50000)
                     (Sample.store 10)))
  /\ result (createOrder (Sample.fine Sample.uuid1) 1000 None
               (Sample.submission "" [Sample.line 2] 50000) (Sample.store 1))
     = inl (InsufficientStock (Some "Dog Food 1kg"%string))
  /\ result (createOrder (Sample.fine Sample.uuid2) 1030 None
               (Sample.jane [Sample.line 1] 25000)
               (MkDB [Sample.dog_food]
                     [Sample.stored_order Sample.uuid1 1000] []))
     = inl RateLimited
  /\ In Select_inventory
        (requests (createOrder (Sample.fine Sample.uuid2) 1030 None
                     (Sample.jane [Sample.line 1] 25000)
                     (MkDB [Sample.dog_food]
                           [Sample.stored_order Sample.uuid1 1000] []))).
Proof. repeat split; vm_compute; auto. Qed.

(** ** The persisted total *)

Lemma getTotalPrice_fold (cart : list CartItem) : forall acc : Z,
  foldl (fun total item => total + totalPrice item * quantity item) acc cart
  = acc + cart_sum cart.
Proof.
  induction cart as [|ci cart IH]; intros acc; simpl.
  - unfold cart_sum. simpl. lia.
  - rewrite IH. unfold cart_sum. simpl. lia.
Qed.

Lemma getTotalPrice_sum (cart : list CartItem) :
  getTotalPrice cart = cart_sum cart.
Proof. unfold getTotalPrice. by rewrite getTotalPrice_fold. Qed.

Lemma orderItems_subtotals (now : Z) (ord : order) (payload : OrderPayload) :
  foldr Z.add 0 (map subtotal (orderItems now ord payload))
  = cart_sum (items payload).
Proof.
  unfold orderItems, cart_sum. rewrite map_map. reflexivity.
Qed.

Lemma orderItems_order_id (now : Z) (ord : order) (payload : OrderPayload) :
  forall r, In r (orderItems now ord payload) ->
    order_id r = o_id ord /\ subtotal r = unit_price r * oi_quantity r.
Proof.
  intros r Hr. unfold orderItems in Hr. apply in_map_iff in Hr as (ci & <- & _).
  split; reflexivity.
Qed.

(** C8, amended. The order created carries the total the caller sent;
    its persisted line items are the rows of the cart lines, each with
    subtotal = unit price * quantity, and their subtotals add up to
    [getTotalPrice] of the cart; the persisted total equals that sum when
    the caller sent [getTotalPrice] of the cart. *)
Theorem persisted_total_is_the_total_of_the_caller
    (env : Env) (now : Z) (clientIp : option string) (payload : OrderPayload)
    (db : DB) (ord : order)
    (Hfk : foreign_key_holds db)
    (Hcreated : result (createOrder env now clientIp payload db) = inr ord) :
  In ord (orders (db_after (createOrder env now clientIp payload db)))
  /\ total ord = p_total payload
  /\ items_of_order (o_id ord)
       (db_after (createOrder env now clientIp payload db))
     = orderItems now ord payload
  /\ (forall r, In r (orderItems now ord payload) ->
        subtotal r = unit_price r * oi_quantity r)
  /\ sum_of_subtotals (o_id ord)
       (db_after (createOrder env now clientIp payload db))
     = getTotalPrice (items payload)
  /\ (p_total payload = getTotalPrice (items payload) ->
      total ord
      = sum_of_subtotals (o_id ord)
          (db_after (createOrder env now clientIp payload db))).
Proof.
  destruct (createOrder_created _ _ _ _ _ _ Hcreated)
    as (_ & Hord & _ & Hpk & Ho & Hi & _).
  assert (Hitems : items_of_order (o_id ord)
                     (db_after (createOrder env now clientIp payload db))
                   = orderItems now ord payload).
  { unfold items_of_order. rewrite Hi, List.filter_app.
    rewrite (filter_none _ _ (no_items_of_fresh_order db (o_id ord) Hfk Hpk)).
    simpl. apply filter_all. intros r Hr. apply bool_decide_eq_true.
    by apply orderItems_order_id in Hr as [? _]. }
  assert (Hsum : sum_of_subtotals (o_id ord)
                   (db_after (createOrder env now clientIp payload db))
                 = getTotalPrice (items payload)).
  { unfold sum_of_subtotals.
    by rewrite Hitems, orderItems_subtotals, getTotalPrice_sum. }
  repeat split.
  - rewrite Ho. apply in_or_app. right. by left.
  - by rewrite Hord.
  - done.
  - intros r Hr. by apply orderItems_order_id in Hr as [_ ?].
  - done.
  - intros Ht. rewrite Hsum, <- Ht. by rewrite Hord.
Qed.

Lemma persisted_total_is_the_total_of_the_caller_witness :
  foreign_key_holds (Sample.store 10)
  /\ (exists ord,
        result (createOrder (Sample.fine Sample.uuid1) 1000 None
                  (Sample.jane [Sample.line 2] 50000) (Sample.store 10))
        = inr ord
        /\ total ord = 50000)
  /\ sum_of_subtotals Sample.uuid1
       (db_after (createOrder (Sample.fine Sample.uuid1) 1000 None
                    (Sample.jane [Sample.line 2] 50000) (Sample.store 10)))
     = 50000.
Proof.
  assert (Hfk : foreign_key_holds (Sample.store 10)) by (intros r []).
  split; [exact Hfk|].
  pose (ord := with_defaults (Sample.fine Sample.uuid1) 1000
                 (order_values None (Sample.jane [Sample.line 2] 50000))).
  assert (Hres : result (createOrder (Sample.fine Sample.uuid1) 1000 None
                           (Sample.jane [Sample.line 2] 50000)
                           (Sample.store 10)) = inr ord)
    by (vm_compute; reflexivity).
  destruct (persisted_total_is_the_total_of_the_caller
              (Sample.fine Sample.uuid1) 1000 None
              (Sample.jane [Sample.line 2] 50000) (Sample.store 10) ord
              Hfk Hres) as (_ & Ht & _ & _ & Hsum & _).
  split.
  - exists ord. split; [exact Hres|exact Ht].
  - exact Hsum.
Defined.

(** C8 as stated fails. The caller sends a total of 0.01 with a cart worth
    500.00: the order is created, its total is 0.01, the subtotals of its
    line items add up to 500.00. *)
Lemma persisted_total_differs_from_subtotals :
  total <$> created_order (createOrder (Sample.fine Sample.uuid1) 1000 None
                             (Sample.jane [Sample.line 2] 1) (Sample.store 10))
  = Some 1
  /\ sum_of_subtotals Sample.uuid1
       (db_after (createOrder (Sample.fine Sample.uuid1) 1000 None
                    (Sample.jane [Sample.line 2] 1) (Sample.store 10)))
     = 50000.
Proof. split; vm_compute; reflexivity. Qed.

(** ** A failed decrement *)

(** C9. When header and line items are persisted and the decrement fails,
    the submission returns the order, the same as with a decrement that
    succeeds; the header and the line items stay in the store, the stock is
    unchanged, and the failure shows only as the warning that ends the list
    of requests. *)
Theorem failed_decrement_keeps_the_order
    (env : Env) (now : Z) (clientIp : option string) (payload : OrderPayload)
    (db db1 db2 : DB) (ord : order)
    (Hcheck : insufficientItem (items payload) (menu_items db) = None)
    (Hhead : insert_order env now (order_values clientIp payload) db
             = inr (db1, ord))
    (Hlines : insert_order_items env (orderItems now ord payload) db1
              = Some db2)
    (Hfault : decrement_fails env = true) :
  result (createOrder env now clientIp payload db) = inr ord
  /\ result (createOrder (without_decrement_fault env) now clientIp payload db)
     = inr ord
  /\ db_after (createOrder env now clientIp payload db) = db2
  /\ orders db2 = orders db ++ [ord]
  /\ order_items db2 = order_items db ++ orderItems now ord payload
  /\ menu_items db2 = menu_items db
  /\ requests (createOrder env now clientIp payload db)
     = [Select_inventory; Insert_order; Insert_order_items;
        Rpc_decrement_menu_item_stock; Warning_decrement_failed].
Proof.
  assert (Hrpc : forall d, rpc_decrement env (inventoryPayload (items payload)) d
                           = None)
    by (intros d; by apply rpc_decrement_None).
  split; [|split].
  - unfold createOrder. by rewrite Hcheck, Hhead, Hlines, Hrpc.
  - unfold createOrder. rewrite Hcheck.
    replace (insert_order (without_decrement_fault env) now
               (order_values clientIp payload) db)
      with (insert_order env now (order_values clientIp payload) db)
      by reflexivity.
    rewrite Hhead.
    replace (insert_order_items (without_decrement_fault env)
               (orderItems now ord payload) db1)
      with (insert_order_items env (orderItems now ord payload) db1)
      by reflexivity.
    rewrite Hlines. reflexivity.
  - unfold createOrder. rewrite Hcheck, Hhead, Hlines, Hrpc. simpl.
    apply insert_order_inr in Hhead as (_ & _ & _ & _ & ->).
    apply insert_order_items_Some in Hlines as (_ & _ & ->). simpl.
    repeat split; done.
Qed.

Lemma failed_decrement_keeps_the_order_witness :
  decrement_fails (Sample.decrement_fail Sample.uuid1) = true
  /\ (exists ord,
        result (createOrder (Sample.decrement_fail Sample.uuid1) 1000 None
                  (Sample.jane [Sample.line 2] 50000) (Sample.store 10))
        = inr ord)
  /\ menu_items
       (db_after (createOrder (Sample.decrement_fail Sample.uuid1) 1000 None
                    (Sample.jane [Sample.line 2] 50000) (Sample.store 10)))
     = menu_items (Sample.store 10).
Proof.
  split; [reflexivity|].
  pose (ord := with_defaults (Sample.decrement_fail Sample.uuid1) 1000
                 (order_values None (Sample.jane [Sample.line 2] 50000))).
  pose (db1 := MkDB (menu_items (Sample.store 10)) [ord] []).
  pose (db2 := MkDB (menu_items (Sample.store 10)) [ord]
                    (orderItems 1000 ord (Sample.jane [Sample.line 2] 50000))).
  destruct (failed_decrement_keeps_the_order
              (Sample.decrement_fail Sample.uuid1) 1000 None
              (Sample.jane [Sample.line 2] 50000) (Sample.store 10)
              db1 db2 ord)
    as (Hres & _ & Hdb & _ & _ & Hm & _);
    try (vm_compute; reflexivity).
  split.
  - exists ord. exact Hres.
  - rewrite Hdb. exact Hm.
Defined.

(** ** The rate limit *)

Lemma count_pos {A} (f : A -> bool) (l : list A) :
  (0 <? Z.of_nat (length (List.filter f l))) = true
  <-> exists x, In x l /\ f x = true.
Proof.
  rewrite Z.ltb_lt. split.
  - destruct (List.filter f l) as [|x r] eqn:E; simpl; [lia|].
    intros _. exists x. apply filter_In. rewrite E. by left.
  - intros (x & Hx). apply filter_In in Hx.
    destruct (List.filter f l); [done|]. simpl. lia.
Qed.










(** ** Order lookup *)

Module LikeFacts.
Import Like.

Lemma append_nil_l (s : string) : EmptyString +:+ s = s.
Proof. reflexivity. Qed.

Lemma append_cons (c : ascii) (s t : string) :
  String c s +:+ t = String c (s +:+ t).
Proof. reflexivity. Qed.

Ltac norm_append := rewrite ?append_nil_l, ?append_cons in *.

Lemma like_percent_unfold (p t : string) :
  like (String percent p) t
  = like p t
    || match t with
       | EmptyString => false
       | String _ rest => like (String percent p) rest
       end.
Proof. destruct t; reflexivity. Qed.

Lemma like_literal (c : ascii) (p t : string) :
  Ascii.eqb c percent = false -> Ascii.eqb c underscore = false ->
  Ascii.eqb c backslash = false ->
  like (String c p) t
  = match t with
    | EmptyString => false
    | String d rest => Ascii.eqb c d && like p rest
    end.
Proof. intros H1 H2 H3. cbn [like]. by rewrite H1, H2, H3. Qed.

(** [%] followed by [p] matches the texts that have a suffix [p]
    matches. *)
Lemma like_percent_spec (p : string) : forall t : string,
  like (String percent p) t = true
  <-> exists pre suf, t = pre +:+ suf /\ like p suf = true.
Proof.
  induction t as [|a r IH]; rewrite like_percent_unfold, orb_true_iff.
  - split.
    + intros [H|H]; [|discriminate]. by exists EmptyString, EmptyString.
    + intros (pre & suf & E & H). left.
      destruct pre; norm_append; [|discriminate]. by subst suf.
  - rewrite IH. split.
    + intros [H|(pre & suf & -> & H)].
      * by exists EmptyString, (String a r).
      * by exists (String a pre), suf.
    + intros (pre & suf & E & H). destruct pre as [|b pre]; norm_append.
      * left. by subst suf.
      * right. injection E as -> ->. by exists pre, suf.
Qed.

Lemma like_percent_only (t : string) : like (String percent EmptyString) t = true.
Proof.
  induction t as [|a r IH]; [reflexivity|].
  rewrite like_percent_unfold, IH. apply orb_true_r.
Qed.

(** A fragment without special characters matches itself, character by
    character. *)
Lemma like_plain_prefix (s : string) :
  plain s = true ->
  forall q t : string,
    like (s +:+ q) t = true
    <-> exists rest, t = s +:+ rest /\ like q rest = true.
Proof.
  induction s as [|c s IH]; intros Hs q t.
  - norm_append. split; [intros H; by exists t|].
    intros (rest & E & H). norm_append. by subst t.
  - simpl in Hs. rewrite !andb_true_iff, !negb_true_iff in Hs.
    destruct Hs as [[[H1 H2] H3] Hs].
    rewrite append_cons, (like_literal c _ t H1 H2 H3).
    destruct t as [|d r].
    + split; [discriminate|]. intros (rest & E & _). norm_append.
      discriminate.
    + rewrite andb_true_iff, (IH Hs q r), Ascii.eqb_eq. split.
      * intros [-> (rest & -> & H)]. by exists rest.
      * intros (rest & E & H). norm_append. injection E as -> ->.
        split; [done|]. by exists rest.
Qed.

Lemma prefix_spec (s : string) : forall t : string,
  String.prefix s t = true <-> exists rest, t = s +:+ rest.
Proof.
  induction s as [|c s IH]; intros t.
  - destruct t; simpl; split; eauto.
  - destruct t as [|d r]; simpl.
    + split; [discriminate|]. intros [rest E]. norm_append. discriminate.
    + destruct (Ascii.ascii_dec c d) as [->|Hne].
      * rewrite IH. split; intros [rest E]; exists rest; norm_append;
          [by subst|]. by injection E.
      * split; [discriminate|]. intros [rest E]. norm_append.
        by injection E.
Qed.

Lemma contains_spec (s : string) : forall t : string,
  contains s t = true <-> exists pre rest, t = pre +:+ s +:+ rest.
Proof.
  induction t as [|a r IH].
  - cbn [contains]. rewrite orb_false_r, prefix_spec. split.
    + intros [rest E]. by exists EmptyString, rest.
    + intros (pre & rest & E). destruct pre; norm_append; [|discriminate].
      by exists rest.
  - cbn [contains]. rewrite orb_true_iff, prefix_spec, IH. split.
    + intros [[rest E]|(pre & rest & ->)].
      * by exists EmptyString, rest.
      * by exists (String a pre), rest.
    + intros (pre & rest & E). destruct pre as [|b pre]; norm_append.
      * left. by exists rest.
      * right. injection E as -> ->. by exists pre, rest.
Qed.

(** On a fragment without special characters, the pattern of the search
    matches the texts that contain the fragment. *)
Lemma like_contains (s t : string) :
  plain s = true ->
  like (String percent (s +:+ String percent EmptyString)) t = contains s t.
Proof.
  intros Hs. apply eq_true_iff_eq.
  rewrite like_percent_spec, contains_spec. split.
  - intros (pre & suf & -> & H).
    apply (like_plain_prefix s Hs) in H as (rest & -> & _). by exists pre, rest.
  - intros (pre & rest & ->). exists pre, (s +:+ rest). split; [done|].
    apply (like_plain_prefix s Hs). exists rest. split; [done|].
    apply like_percent_only.
Qed.

Lemma lower_app (s t : string) : lower (s +:+ t) = lower s +:+ lower t.
Proof.
  induction s as [|c s IH]; norm_append; simpl; [done|].
  by rewrite append_cons, IH.
Qed.

Lemma lower_ascii_special (c : ascii) :
  Ascii.eqb (lower_ascii c) percent = Ascii.eqb c percent
  /\ Ascii.eqb (lower_ascii c) underscore = Ascii.eqb c underscore
  /\ Ascii.eqb (lower_ascii c) backslash = Ascii.eqb c backslash.
Proof.
  destruct c as [[] [] [] [] [] [] [] []]; repeat split; reflexivity.
Qed.

Lemma plain_lower (s : string) : plain (lower s) = plain s.
Proof.
  induction s as [|c s IH]; simpl; [done|].
  destruct (lower_ascii_special c) as (-> & -> & ->). by rewrite IH.
Qed.

(** The condition of the search, on a fragment without special
    characters: the identifier contains the fragment, case ignored. *)
Lemma ilike_contains_ci (term id : string) :
  plain term = true ->
  ilike id ("%" +:+ term +:+ "%") = contains_ci term id.
Proof.
  intros Hp. unfold ilike, contains_ci.
  change ("%" +:+ term +:+ "%")
    with (String percent (term +:+ String percent EmptyString)).
  cbn [lower]. rewrite lower_app.
  change (lower_ascii percent) with percent.
  change (lower (String percent EmptyString)) with (String percent EmptyString).
  apply like_contains. by rewrite plain_lower.
Qed.

End LikeFacts.

Lemma later_of_fold (rows : list order) : forall b : order,
  exists o, foldl later_of (Some b) rows = Some o
            /\ (o = b \/ In o rows)
            /\ created_at b <= created_at o
            /\ forall o', In o' rows -> created_at o' <= created_at o.
Proof.
  induction rows as [|r rows IH]; intros b; simpl.
  - exists b. repeat split; [by left|lia|intros ? []].
  - destruct (Z.ltb_spec (created_at b) (created_at r)) as [Hlt|Hge].
    + destruct (IH r) as (o & -> & Hin & Hle & Hall). exists o.
      repeat split; [|lia|].
      * right. destruct Hin as [->|?]; [by left|by right].
      * intros o' [<-|Ho']; [done|by apply Hall].
    + destruct (IH b) as (o & -> & Hin & Hle & Hall). exists o.
      repeat split; [|done|].
      * destruct Hin as [->|?]; [by left|right; by right].
      * intros o' [<-|Ho']; [lia|by apply Hall].
Qed.

(** [ORDER BY created_at DESC LIMIT 1] returns no row exactly on an empty
    input, and otherwise a row of the input that none is more recent
    than. *)
Lemma order_by_created_at_desc_limit_1_spec (rows : list order) :
  match order_by_created_at_desc_limit_1 rows with
  | None => rows = []
  | Some o => In o rows /\ forall o', In o' rows -> created_at o' <= created_at o
  end.
Proof.
  unfold order_by_created_at_desc_limit_1. destruct rows as [|r rows]; [done|].
  simpl. destruct (later_of_fold rows r) as (o & -> & Hin & Hle & Hall).
  split.
  - destruct Hin as [->|?]; [by left|by right].
  - intros o' [<-|Ho']; [done|by apply Hall].
Qed.

Lemma search_plain (term : string) (tbl : list order) :
  Like.plain term = true ->
  search_order_by_id term tbl
  = order_by_created_at_desc_limit_1
      (List.filter (fun o => Like.contains_ci term (o_id o)) tbl).
Proof.
  intros Hp. unfold search_order_by_id. f_equal. apply filter_ext.
  intros o. by apply LikeFacts.ilike_contains_ci.
Qed.

(** For a fragment without [%], [_] and backslash, the search finds an
    order exactly when some identifier contains the fragment, case ignored,
    and the order found is a most recent one among those. *)
Lemma search_plain_fragment (term : string) (tbl : list order) :
  Like.plain term = true ->
  (search_order_by_id term tbl = None
   <-> forall o, In o tbl -> Like.contains_ci term (o_id o) = false)
  /\ forall o, search_order_by_id term tbl = Some o ->
       In o tbl /\ Like.contains_ci term (o_id o) = true
       /\ forall o', In o' tbl -> Like.contains_ci term (o_id o') = true ->
            created_at o' <= created_at o.
Proof.
  intros Hp. rewrite (search_plain term tbl Hp).
  pose proof (order_by_created_at_desc_limit_1_spec
                (List.filter (fun o => Like.contains_ci term (o_id o)) tbl))
    as Hspec.
  destruct (order_by_created_at_desc_limit_1 _) as [o|].
  - destruct Hspec as [Hin Hall]. apply filter_In in Hin as [Hin Hc]. split.
    + split; [discriminate|]. intros H. rewrite (H o Hin) in Hc. discriminate.
    + intros ? [= <-]. repeat split; try done.
      intros o' Ho' Hc'. apply Hall. by apply filter_In.
  - split; [|discriminate]. split; [|done]. intros _ o Ho.
    destruct (Like.contains_ci term (o_id o)) eqn:E; [|done].
    assert (In o (List.filter (fun o => Like.contains_ci term (o_id o)) tbl))
      by (by apply filter_In).
    rewrite Hspec in *. done.
Qed.

(** The empty fragment selects every order: the search returns a most
    recent order of the whole store. *)
Lemma search_empty_fragment (tbl : list order) :
  search_order_by_id "" tbl = order_by_created_at_desc_limit_1 tbl.
Proof.
  rewrite search_plain by reflexivity. f_equal. apply filter_all.
  intros o _. unfold Like.contains_ci. apply LikeFacts.contains_spec.
  by exists EmptyString, (Like.lower (o_id o)).
Qed.

(** C10, at the fragment ["_"]: the identifier of the only order does not
    contain an underscore, and the search returns the order, since the
    fragment is spliced into the pattern with its [LIKE] meaning: any one
    character. *)
Theorem search_underscore_matches_any_order :
  Like.contains_ci "_" Sample.uuid1 = false
  /\ search_order_by_id "_" [Sample.stored_order Sample.uuid1 1000]
     = Some (Sample.stored_order Sample.uuid1 1000).
Proof. split; vm_compute; reflexivity. Qed.

(** ** The scenarios of the specification *)

(** Happy path: 2 units of an item with 10 in stock and threshold 2; the
    order is created, 8 units are left, the item is still available. *)
Example scenario_happy_path :
  created_order (createOrder (Sample.fine Sample.uuid1) 1000 None
                   (Sample.jane [Sample.line 2] 50000) (Sample.store 10))
  = Some (Sample.stored_order Sample.uuid1 1000)
  /\ map (fun r => (stock_quantity r, available r))
         (menu_items (db_after
            (createOrder (Sample.fine Sample.uuid1) 1000 None
               (Sample.jane [Sample.line 2] 50000) (Sample.store 10))))
     = [(Some 8, Some true)].
Proof. split; vm_compute; reflexivity. Qed.

(** Insufficient stock: the same with 1 unit in stock. *)
Example scenario_insufficient_stock :
  createOrder (Sample.fine Sample.uuid1) 1000 None
    (Sample.jane [Sample.line 2] 50000) (Sample.store 1)
  = MkOutcome (Sample.store 1) [Select_inventory]
      (inl (InsufficientStock (Some "Dog Food 1kg"%string))).
Proof. vm_compute. reflexivity. Qed.

(** Rate limited: a second order of the same contact, with another cart,
    right after the first. *)
Example scenario_rate_limited :
  result (createOrder (Sample.fine Sample.uuid2) 1000 None
            (Sample.jane [Sample.line 1] 25000)
            (db_after (createOrder (Sample.fine Sample.uuid1) 1000 None
                         (Sample.jane [Sample.line 2] 50000)
                         (Sample.store 10))))
  = inl RateLimited
  /\ map o_id (orders (db_after
       (createOrder (Sample.fine Sample.uuid2) 1000 None
          (Sample.jane [Sample.line 1] 25000)
          (db_after (createOrder (Sample.fine Sample.uuid1) 1000 None
                       (Sample.jane [Sample.line 2] 50000)
                       (Sample.store 10))))))
     = [Sample.uuid1].
Proof. split; vm_compute; reflexivity. Qed.

(** A contact number of spaces only is no identifier: two orders that share
    it, from different addresses, are both created within the cooldown. *)
Example blank_contact_is_no_identifier :
  identifier_present (Some "  "%string) = false
  /\ map o_id (orders (db_after
       (createOrder (Sample.fine Sample.uuid2) 1010 (Some "203.0.113.9"%string)
          (Sample.submission "  " [Sample.line 1] 25000)
          (db_after (createOrder (Sample.fine Sample.uuid1) 1000
                       (Some "203.0.113.7"%string)
                       (Sample.submission "  " [Sample.line 2] 50000)
                       (Sample.store 10))))))
     = [Sample.uuid1; Sample.uuid2].
Proof. split; vm_compute; reflexivity. Qed.

(** * Further properties of the code *)

(** ** The availability trigger on inserts and repeated writes *)

Lemma sync_stored_row (id name : string) (q t : Z) (a : option bool) :
  0 <= q -> 0 <= t ->
  sync_menu_item_availability
    (Some (MenuItem id name (Some true) (Some q) (Some t) a))
    (MenuItem id name (Some true) (Some q) (Some t) a)
  = MenuItem id name (Some true) (Some q) (Some t) a.
Proof.
  intros Hq Ht. rewrite sync_tracked_shape by reflexivity. cbn.
  rewrite !Z.max_l by lia. unfold is_distinct_from.
  rewrite !bool_decide_eq_false_2 by (intros H; by apply H). reflexivity.
Qed.

(** X1. What the trigger has stored is stable: writing the stored row
    again, column for column, stores the same row, whatever write produced
    it. *)
Theorem sync_is_stable (OLD : option menu_item) (NEW : menu_item) :
  sync_menu_item_availability
    (Some (sync_menu_item_availability OLD NEW))
    (sync_menu_item_availability OLD NEW)
  = sync_menu_item_availability OLD NEW.
Proof.
  destruct (decide (tracked NEW)) as [Ht|Ht].
  - rewrite (sync_tracked_shape OLD NEW Ht). cbv zeta.
    apply sync_stored_row; lia.
  - rewrite (sync_untracked OLD NEW Ht). by apply sync_untracked.
Qed.

(** X2. On an INSERT the columns of [OLD] are NULL: a row inserted with
    tracking enabled gets its quantity and threshold clamped and its
    availability computed as quantity > threshold, whatever availability
    the insert gives. *)
Theorem insert_computes_availability (NEW : menu_item) (Hnew : tracked NEW) :
  sync_menu_item_availability None NEW
  = MenuItem (mi_id NEW) (mi_name NEW) (Some true)
      (Some (Z.max (coalesce (stock_quantity NEW) 0) 0))
      (Some (Z.max (coalesce (low_stock_threshold NEW) 0) 0))
      (Some (bool_decide
               (Z.max (coalesce (low_stock_threshold NEW) 0) 0
                < Z.max (coalesce (stock_quantity NEW) 0) 0))).
Proof.
  rewrite (sync_tracked_shape None NEW Hnew). cbn. f_equal. f_equal.
  destruct (Z.leb_spec (Z.max (coalesce (stock_quantity NEW) 0) 0)
                       (Z.max (coalesce (low_stock_threshold NEW) 0) 0));
    simpl; symmetry; [apply bool_decide_eq_false_2|apply bool_decide_eq_true_2];
    lia.
Qed.

Lemma insert_computes_availability_witness :
  tracked (MenuItem "C3" "Cat Litter" (Some true) None (Some (-4)) (Some true))
  /\ sync_menu_item_availability None
       (MenuItem "C3" "Cat Litter" (Some true) None (Some (-4)) (Some true))
     = MenuItem "C3" "Cat Litter" (Some true) (Some 0) (Some 0) (Some false).
Proof.
  split; [reflexivity|].
  exact (insert_computes_availability
           (MenuItem "C3" "Cat Litter" (Some true) None (Some (-4)) (Some true))
           eq_refl).
Defined.

Lemma sync_well_stored (OLD : option menu_item) (NEW : menu_item) :
  well_stored (sync_menu_item_availability OLD NEW).
Proof.
  intros Ht. unfold tracked in Ht. rewrite sync_track_inventory in Ht.
  rewrite (sync_tracked_shape OLD NEW Ht). cbn.
  eexists _, _. repeat split; lia.
Qed.

(** X3. Whatever its WHERE clause and its SET list, an UPDATE of
    [menu_items] keeps the table well stored: it keeps the number of rows,
    and if every tracked row had a quantity and a threshold that are not
    NULL and not negative, so has every tracked row afterwards. *)
Theorem update_keeps_rows_well_stored
    (where_ : menu_item -> bool) (set_ : menu_item -> menu_item)
    (tbl : list menu_item) (Hwell : Forall well_stored tbl) :
  Forall well_stored (update_menu_items where_ set_ tbl)
  /\ length (update_menu_items where_ set_ tbl) = length tbl.
Proof.
  split.
  - unfold update_menu_items. induction Hwell as [|r tbl Hr _ IH]; simpl.
    + constructor.
    + constructor; [|exact IH]. unfold update_row.
      destruct (where_ r); [apply sync_well_stored|exact Hr].
  - unfold update_menu_items. apply length_map.
Qed.

Lemma update_keeps_rows_well_stored_witness :
  Forall well_stored [Sample.dog_food; Sample.leash]
  /\ Forall well_stored
       (update_menu_items (fun _ => true)
          (fun r => set_stock_quantity r (Some (-5)))
          [Sample.dog_food; Sample.leash]).
Proof.
  assert (H : Forall well_stored [Sample.dog_food; Sample.leash]).
  { repeat constructor.
    - intros _. exists 10, 2. repeat split; lia.
    - intros Ht. discriminate Ht. }
  split; [exact H|].
  exact (proj1 (update_keeps_rows_well_stored (fun _ => true)
                  (fun r => set_stock_quantity r (Some (-5)))
                  [Sample.dog_food; Sample.leash] H)).
Defined.

Lemma sync_before_fix_shape (NEW : menu_item) :
  tracked NEW ->
  sync_menu_item_availability_before_fix NEW
  = MenuItem (mi_id NEW) (mi_name NEW) (Some true)
      (Some (Z.max (coalesce (stock_quantity NEW) 0) 0))
      (Some (Z.max (coalesce (low_stock_threshold NEW) 0) 0))
      (Some (negb (Z.max (coalesce (stock_quantity NEW) 0) 0
                   <=? Z.max (coalesce (low_stock_threshold NEW) 0) 0))).
Proof.
  unfold tracked, sync_menu_item_availability_before_fix. intros Ht.
  rewrite Ht. simpl. unfold greatest.
  destruct (_ <=? _);
    unfold set_available, set_low_stock_threshold, set_stock_quantity; simpl;
    rewrite ?Ht; reflexivity.
Qed.

(** X4. The fix of the trigger changes one thing only. The fixed trigger
    and the trigger before the fix store the same row on every insert and
    on every write that changes the stored quantity, the stored threshold
    or the tracking flag; on the other writes they store rows that differ
    at most in the availability, where the fixed trigger keeps what the
    write gives. *)
Theorem fix_changes_only_unrelated_writes (OLD : option menu_item)
    (NEW : menu_item) :
  let fixed := sync_menu_item_availability OLD NEW in
  let before := sync_menu_item_availability_before_fix NEW in
  set_available fixed None = set_available before None
  /\ (OLD = None -> fixed = before)
  /\ (old_col OLD stock_quantity ≠ stock_quantity fixed
      \/ old_col OLD low_stock_threshold ≠ low_stock_threshold fixed
      \/ old_col OLD track_inventory ≠ track_inventory fixed ->
      fixed = before)
  /\ (fixed ≠ before -> available fixed = available NEW).
Proof.
  intros fixed before. subst fixed before.
  destruct (decide (tracked NEW)) as [Ht|Ht].
  - rewrite (sync_tracked_shape OLD NEW Ht), (sync_before_fix_shape NEW Ht).
    cbv zeta.
    set (q := Z.max (coalesce (stock_quantity NEW) 0) 0).
    set (t := Z.max (coalesce (low_stock_threshold NEW) 0) 0).
    destruct (is_distinct_from (old_col OLD stock_quantity) (Some q)
              || is_distinct_from (old_col OLD low_stock_threshold) (Some t)
              || is_distinct_from (old_col OLD track_inventory) (Some true))
      eqn:Hc; cbn.
    + repeat split; try done.
    + split; [done|].
      apply orb_false_iff in Hc as [Hc Hc3].
      apply orb_false_iff in Hc as [Hc1 Hc2].
      unfold is_distinct_from in Hc1, Hc2, Hc3.
      apply bool_decide_eq_false in Hc1, Hc2, Hc3.
      split; [|split].
      * intros ->. simpl in Hc3. exfalso. apply Hc3. discriminate.
      * intros [H|[H|H]]; exfalso; tauto.
      * done.
  - rewrite (sync_untracked OLD NEW Ht).
    assert (Hb : sync_menu_item_availability_before_fix NEW = NEW).
    { unfold sync_menu_item_availability_before_fix.
      destruct (coalesce (track_inventory NEW) false) eqn:E; [|done].
      apply coalesce_track_true in E. done. }
    rewrite Hb. repeat split; done.
Qed.

(** ** Composition of decrements *)

Lemma decrement_row_shape (row : menu_item) (e : stock_entry) :
  tracked row -> mi_id row = e.1 ->
  let q := Z.max (current_quantity row - e.2) 0 in
  let t := Z.max (coalesce (low_stock_threshold row) 0) 0 in
  decrement_row row e
  = MenuItem (mi_id row) (mi_name row) (Some true) (Some q) (Some t)
      (if is_distinct_from (stock_quantity row) (Some q)
          || is_distinct_from (low_stock_threshold row) (Some t)
       then Some (negb (q <=? t)) else available row).
Proof.
  intros Ht Hid q t. unfold decrement_row, update_row, decrement_where.
  unfold tracked in Ht. rewrite Ht, (bool_decide_eq_true_2 _ Hid). cbn [andb eq_is_true].
  rewrite bool_decide_eq_true_2 by done.
  rewrite sync_tracked_shape by (unfold tracked; simpl; done).
  cbn. unfold greatest, current_quantity in *. rewrite Ht.
  replace (Z.max (Z.max (coalesce (stock_quantity row) 0 - e.2) 0) 0) with q
    by (subst q; lia).
  fold t. unfold is_distinct_from at 3.
  rewrite (bool_decide_eq_false_2 (Some true ≠ Some true))
    by (intros H; by apply H).
  rewrite orb_false_r. reflexivity.
Qed.

(** Turns the equations and disequations between [Some]s of the context
    into facts about their arguments. *)
Ltac some_facts :=
  repeat match goal with
  | H : Some ?x = Some ?y |- _ =>
      assert (x = y) by congruence; clear H
  | H : Some ?x ≠ Some ?y |- _ =>
      assert (x ≠ y) by (intros ?; apply H; congruence); clear H
  | H : None = Some _ |- _ => discriminate H
  | H : Some _ = None |- _ => discriminate H
  | H : None ≠ Some _ |- _ => clear H
  | H : Some _ ≠ None |- _ => clear H
  | H : None ≠ None |- _ => exfalso; apply H; reflexivity
  end.

Lemma decrement_row_twice (row : menu_item) (id : string) (a b : Z) :
  0 <= a -> 0 <= b ->
  decrement_row (decrement_row row (id, a)) (id, b)
  = decrement_row row (id, a + b).
Proof.
  intros Ha Hb.
  destruct (decide (tracked row)) as [Ht|Ht];
    [|by rewrite !(decrement_row_untracked row) by done].
  destruct (decide (mi_id row = id)) as [Hid|Hid];
    [|by rewrite !(decrement_row_other row) by (by simpl)].
  rewrite (decrement_row_shape row (id, a + b) Ht Hid).
  rewrite (decrement_row_shape row (id, a) Ht Hid).
  cbv zeta. cbn [fst snd].
  set (c := current_quantity row).
  set (t := Z.max (coalesce (low_stock_threshold row) 0) 0).
  rewrite decrement_row_shape by done. cbv zeta.
  cbn [fst snd mi_id mi_name stock_quantity low_stock_threshold available].
  unfold current_quantity at 1 2 3. cbn [stock_quantity coalesce].
  replace (Z.max t 0) with t by (subst t; lia).
  replace (Z.max (Z.max (c - a) 0 - b) 0) with (Z.max (c - (a + b)) 0) by lia.
  f_equal. unfold is_distinct_from.
  assert (Hc : stock_quantity row = Some c \/ (stock_quantity row = None /\ c = 0)).
  { subst c. unfold current_quantity. destruct (stock_quantity row); simpl; auto. }
  clearbody c.
  repeat case_bool_decide; cbn [orb]; try reflexivity;
    destruct Hc as [Hc|[Hc Hc0]]; rewrite Hc in *; some_facts;
    first [ exfalso; lia | f_equal; f_equal; lia ].
Qed.

(** X5. Decrements add up: two entries for the same item, with quantities
    that are not negative, leave the table as one entry for the sum of the
    two quantities does, availability included. *)
Theorem decrement_entries_add_up (id : string) (a b : Z)
    (tbl : list menu_item) (Ha : 0 <= a) (Hb : 0 <= b) :
  decrement_menu_item_stock [(id, a); (id, b)] tbl
  = decrement_menu_item_stock [(id, a + b)] tbl.
Proof.
  rewrite !decrement_menu_item_stock_map. apply map_ext. intros row.
  unfold decrement_row_items. simpl. by apply decrement_row_twice.
Qed.

Lemma decrement_entries_add_up_witness :
  0 <= 3 /\ 0 <= 4
  /\ decrement_menu_item_stock [("A1"%string, 3); ("A1"%string, 4)]
       [Sample.dog_food]
     = decrement_menu_item_stock [("A1"%string, 7)] [Sample.dog_food].
Proof.
  split; [lia|]. split; [lia|].
  exact (decrement_entries_add_up "A1" 3 4 [Sample.dog_food]
           ltac:(lia) ltac:(lia)).
Defined.

Lemma decrement_row_swap (row : menu_item) (e1 e2 : stock_entry) :
  0 <= e1.2 -> 0 <= e2.2 ->
  decrement_row (decrement_row row e1) e2
  = decrement_row (decrement_row row e2) e1.
Proof.
  destruct e1 as [id1 a], e2 as [id2 b]. simpl. intros Ha Hb.
  destruct (decide (id1 = id2)) as [->|Hne].
  - rewrite !decrement_row_twice by done. f_equal. f_equal. lia.
  - destruct (decide (mi_id row = id1)) as [H1|H1].
    + rewrite (decrement_row_other row (id2, b)) by (simpl; congruence).
      rewrite (decrement_row_other _ (id2, b)); [done|].
      rewrite decrement_row_mi_id. simpl. congruence.
    + rewrite (decrement_row_other row (id1, a)) by (by simpl).
      rewrite (decrement_row_other _ (id1, a)); [done|].
      rewrite decrement_row_mi_id. by simpl.
Qed.

Lemma decrement_row_items_perm (l1 l2 : list stock_entry) :
  l1 ≡ₚ l2 -> nonneg_entries l1 ->
  forall row, decrement_row_items l1 row = decrement_row_items l2 row.
Proof.
  unfold nonneg_entries, decrement_row_items.
  induction 1 as [|e l1 l2 Hp IH|e1 e2 l|l1 l2 l3 Hp1 IH1 Hp2 IH2];
    intros Hn row.
  - done.
  - simpl. apply IH. by inversion Hn.
  - simpl. f_equal. inversion Hn as [|? ? He1 Hn']. inversion Hn' as [|? ? He2 _].
    by apply decrement_row_swap.
  - rewrite IH1 by done. apply IH2. by rewrite <- Hp1.
Qed.

(** X6. The order of the entries of a call does not matter: two lists of
    entries that are permutations of each other, with quantities that are
    not negative, leave the same table. *)
Theorem decrement_order_irrelevant (l1 l2 : list stock_entry)
    (tbl : list menu_item) (Hperm : l1 ≡ₚ l2) (Hnonneg : nonneg_entries l1) :
  decrement_menu_item_stock l1 tbl = decrement_menu_item_stock l2 tbl.
Proof.
  rewrite !decrement_menu_item_stock_map. apply map_ext. intros row.
  by apply decrement_row_items_perm.
Qed.

Lemma decrement_order_irrelevant_witness :
  [("A1"%string, 3); ("B7"%string, 1)] ≡ₚ [("B7"%string, 1); ("A1"%string, 3)]
  /\ nonneg_entries [("A1"%string, 3); ("B7"%string, 1)]
  /\ decrement_menu_item_stock [("A1"%string, 3); ("B7"%string, 1)]
       [Sample.dog_food; Sample.leash]
     = decrement_menu_item_stock [("B7"%string, 1); ("A1"%string, 3)]
         [Sample.dog_food; Sample.leash].
Proof.
  assert (Hp : [("A1"%string, 3); ("B7"%string, 1)]
               ≡ₚ [("B7"%string, 1); ("A1"%string, 3)]) by apply perm_swap.
  assert (Hn : nonneg_entries [("A1"%string, 3); ("B7"%string, 1)])
    by (repeat constructor; simpl; lia).
  split; [exact Hp|]. split; [exact Hn|].
  exact (decrement_order_irrelevant _ _ [Sample.dog_food; Sample.leash] Hp Hn).
Defined.

(** X7. What a sale does to the availability. For a tracked row with a
    stored quantity [c > 0] and threshold [t >= 0], an entry of a positive
    quantity [qty] for the row leaves [max (c - qty) 0] units and sets the
    availability to "more than [t] units are left", whatever it was, so a
    sale that reaches the threshold switches the item off; an entry of
    quantity 0, or for a row that is out of stock, leaves the row as it
    is. *)
Theorem decrement_sets_availability (row : menu_item) (id : string)
    (c t qty : Z)
    (Htracked : tracked row) (Hid : mi_id row = id)
    (Hstock : stock_quantity row = Some c)
    (Hthreshold : low_stock_threshold row = Some t)
    (Hc : 0 <= c) (Ht : 0 <= t) (Hqty : 0 <= qty) :
  (0 < qty -> 0 < c ->
   decrement_row row (id, qty)
   = MenuItem (mi_id row) (mi_name row) (Some true)
       (Some (Z.max (c - qty) 0)) (Some t)
       (Some (bool_decide (t < Z.max (c - qty) 0))))
  /\ (qty = 0 \/ c = 0 -> decrement_row row (id, qty) = row).
Proof.
  rewrite (decrement_row_shape row (id, qty) Htracked Hid). cbv zeta.
  unfold current_quantity. rewrite Hstock, Hthreshold. cbn [coalesce fst snd].
  replace (Z.max t 0) with t by lia. unfold is_distinct_from. split.
  - intros Hq Hpos.
    rewrite (bool_decide_eq_true_2 (Some c ≠ Some (Z.max (c - qty) 0)))
      by (intros [= H]; lia).
    cbn [orb]. f_equal. f_equal.
    destruct (Z.leb_spec (Z.max (c - qty) 0) t); simpl; symmetry;
      [apply bool_decide_eq_false_2|apply bool_decide_eq_true_2]; lia.
  - intros H.
    rewrite (bool_decide_eq_false_2 (Some c ≠ Some (Z.max (c - qty) 0)))
      by (intros Hn; apply Hn; f_equal; lia).
    rewrite (bool_decide_eq_false_2 (Some t ≠ Some t))
      by (intros Hn; by apply Hn).
    cbn [orb]. destruct row as [i n tr s th av]. simpl in *. subst.
    unfold tracked in Htracked. simpl in Htracked. subst.
    f_equal. f_equal. lia.
Qed.

Lemma decrement_sets_availability_witness :
  tracked Sample.dog_food
  /\ decrement_row Sample.dog_food ("A1"%string, 8)
     = MenuItem "A1" "Dog Food 1kg" (Some true) (Some 2) (Some 2) (Some false).
Proof.
  split; [reflexivity|].
  exact (proj1 (decrement_sets_availability Sample.dog_food "A1" 10 2 8
                  eq_refl eq_refl eq_refl eq_refl
                  ltac:(lia) ltac:(lia) ltac:(lia))
               ltac:(lia) ltac:(lia)).
Defined.

(** ** Searching orders *)

(** X8. Searching with a plain fragment. For a fragment without [%], [_]
    and backslash, the search returns nothing exactly when no stored
    identifier contains the fragment, letter case ignored; and an order it
    returns is stored, has an identifier that contains the fragment, and is
    at least as recent as every other stored order whose identifier
    contains it. *)
Theorem plain_fragment_finds_latest_match (term : string) (tbl : list order)
    (Hplain : Like.plain term = true) :
  (search_order_by_id term tbl = None
   <-> forall o, In o tbl -> Like.contains_ci term (o_id o) = false)
  /\ forall o, search_order_by_id term tbl = Some o ->
       In o tbl /\ Like.contains_ci term (o_id o) = true
       /\ forall o', In o' tbl -> Like.contains_ci term (o_id o') = true ->
            created_at o' <= created_at o.
Proof. exact (search_plain_fragment term tbl Hplain). Qed.

Lemma plain_fragment_finds_latest_match_witness :
  Like.plain "2F6D8A1B" = true
  /\ search_order_by_id "2F6D8A1B"
       [Sample.stored_order Sample.uuid1 1000;
        Sample.stored_order Sample.uuid2 2000]
     = Some (Sample.stored_order Sample.uuid1 1000)
  /\ Like.contains_ci "2F6D8A1B" Sample.uuid1 = true.
Proof.
  split; [reflexivity|].
  assert (E : search_order_by_id "2F6D8A1B"
                [Sample.stored_order Sample.uuid1 1000;
                 Sample.stored_order Sample.uuid2 2000]
              = Some (Sample.stored_order Sample.uuid1 1000))
    by (vm_compute; reflexivity).
  split; [exact E|].
  exact (proj1 (proj2 (proj2 (plain_fragment_finds_latest_match "2F6D8A1B"
           [Sample.stored_order Sample.uuid1 1000;
            Sample.stored_order Sample.uuid2 2000] eq_refl) _ E))).
Defined.

Lemma lower_idempotent (s : string) : Like.lower (Like.lower s) = Like.lower s.
Proof.
  induction s as [|c s IH]; simpl; [done|]. rewrite IH. f_equal.
  destruct c as [[] [] [] [] [] [] [] []]; reflexivity.
Qed.

Lemma search_lower (term1 term2 : string) (tbl : list order) :
  Like.lower term1 = Like.lower term2 ->
  search_order_by_id term1 tbl = search_order_by_id term2 tbl.
Proof.
  intros Hcase. unfold search_order_by_id. f_equal. apply filter_ext.
  intros o. unfold Like.ilike.
  change ("%" +:+ ?t +:+ "%")
    with (String Like.percent (t +:+ String Like.percent EmptyString)).
  cbn [Like.lower]. by rewrite !LikeFacts.lower_app, Hcase.
Qed.

(** X9. The letter case of the search term does not matter: two terms
    that are equal up to the case of their letters find the same order in
    every store. *)
Theorem search_ignores_case (term1 term2 : string) (tbl : list order)
    (Hcase : Like.lower term1 = Like.lower term2) :
  search_order_by_id term1 tbl = search_order_by_id term2 tbl.
Proof. by apply search_lower. Qed.

Lemma search_ignores_case_witness :
  Like.lower "2F6D8A1B" = Like.lower "2f6d8a1b"
  /\ search_order_by_id "2F6D8A1B" [Sample.stored_order Sample.uuid1 1000]
     = search_order_by_id "2f6d8a1b" [Sample.stored_order Sample.uuid1 1000].
Proof.
  split; [reflexivity|].
  exact (search_ignores_case "2F6D8A1B" "2f6d8a1b"
           [Sample.stored_order Sample.uuid1 1000] eq_refl).
Defined.

Lemma string_length_app (s t : string) :
  String.length (s +:+ t) = (String.length s + String.length t)%nat.
Proof.
  induction s as [|c s IH]; [done|].
  rewrite LikeFacts.append_cons. simpl. by rewrite IH.
Qed.

Lemma string_app_nil_r (s : string) : s +:+ EmptyString = s.
Proof.
  induction s as [|c s IH]; [done|]. by rewrite LikeFacts.append_cons, IH.
Qed.

Lemma string_length_zero (s : string) : String.length s = 0%nat -> s = EmptyString.
Proof. by destruct s. Qed.

(** A text that contains a fragment of its own length is the fragment. *)
Lemma contains_same_length (s t : string) :
  Like.contains s t = true -> String.length s = String.length t -> s = t.
Proof.
  intros Hc Hl. apply LikeFacts.contains_spec in Hc as (pre & rest & ->).
  rewrite !string_length_app in Hl.
  assert (Hpre : pre = EmptyString) by (apply string_length_zero; lia).
  assert (Hrest : rest = EmptyString) by (apply string_length_zero; lia).
  subst. by rewrite LikeFacts.append_nil_l, string_app_nil_r.
Qed.

Lemma uuid_char_facts (c : ascii) :
  uuid_char c = true ->
  Like.lower_ascii c = c
  /\ Ascii.eqb c Like.percent = false
  /\ Ascii.eqb c Like.underscore = false
  /\ Ascii.eqb c Like.backslash = false.
Proof.
  destruct c as [[] [] [] [] [] [] [] []]; vm_compute; intros H;
    first [discriminate H | repeat split].
Qed.

Lemma all_uuid_chars (s : string) :
  all_chars uuid_char s = true ->
  Like.lower s = s /\ Like.plain s = true.
Proof.
  induction s as [|c s IH]; [done|]. simpl.
  intros [Hc Hs]%andb_true_iff.
  destruct (uuid_char_facts c Hc) as (Hl & -> & -> & ->).
  destruct (IH Hs) as [-> ->]. by rewrite Hl.
Qed.

Lemma uuid_text_facts (s : string) :
  uuid_text s = true ->
  String.length s = 36%nat /\ Like.lower s = s /\ Like.plain s = true.
Proof.
  unfold uuid_text. intros [Hl Hc]%andb_true_iff.
  apply Nat.eqb_eq in Hl. by destruct (all_uuid_chars s Hc).
Qed.

(** X10. Searching by a whole identifier finds that very order: in a store
    whose identifiers are texts of [uuid]s and pairwise different, the
    search for the identifier of a stored order, in any letter case,
    returns this order. *)
Theorem search_by_full_identifier (tbl : list order) (o : order)
    (term : string)
    (Hkey : NoDup (map o_id tbl))
    (Huuid : Forall (fun o' => uuid_text (o_id o') = true) tbl)
    (Hstored : In o tbl)
    (Hterm : Like.lower term = o_id o) :
  search_order_by_id term tbl = Some o.
Proof.
  rewrite List.Forall_forall in Huuid.
  destruct (uuid_text_facts _ (Huuid o Hstored)) as (Hlen & Hlow & Hplain).
  rewrite (search_lower term (o_id o)) by congruence.
  rewrite (search_plain _ _ Hplain).
  pose proof (order_by_created_at_desc_limit_1_spec
                (List.filter (fun o' => Like.contains_ci (o_id o) (o_id o')) tbl))
    as Hspec.
  assert (Hself : In o (List.filter
                    (fun o' => Like.contains_ci (o_id o) (o_id o')) tbl)).
  { apply filter_In. split; [done|]. unfold Like.contains_ci.
    apply LikeFacts.contains_spec. exists EmptyString, EmptyString.
    by rewrite LikeFacts.append_nil_l, string_app_nil_r. }
  destruct (order_by_created_at_desc_limit_1 _) as [o'|].
  - destruct Hspec as [Hin _]. apply filter_In in Hin as [Hin Hc].
    destruct (uuid_text_facts _ (Huuid o' Hin)) as (Hlen' & Hlow' & _).
    unfold Like.contains_ci in Hc. rewrite Hlow, Hlow' in Hc.
    apply contains_same_length in Hc; [|congruence].
    f_equal. symmetry.
    apply list_elem_of_In in Hin, Hstored.
    apply list_elem_of_lookup in Hin as [i Hi].
    apply list_elem_of_lookup in Hstored as [j Hj].
    assert (i = j); [|congruence].
    apply (NoDup_lookup (map o_id tbl) i j (o_id o)); [done| |].
    + change (map o_id tbl) with (o_id <$> tbl).
      by rewrite list_lookup_fmap, Hi, Hc.
    + change (map o_id tbl) with (o_id <$> tbl).
      by rewrite list_lookup_fmap, Hj.
  - rewrite Hspec in Hself. destruct Hself.
Qed.

Lemma search_by_full_identifier_witness :
  NoDup (map o_id [Sample.stored_order Sample.uuid1 1000;
                   Sample.stored_order Sample.uuid2 2000])
  /\ In (Sample.stored_order Sample.uuid1 1000)
        [Sample.stored_order Sample.uuid1 1000;
         Sample.stored_order Sample.uuid2 2000]
  /\ search_order_by_id "0B0E7A3C-5D2F-4C1A-9E64-2F6D8A1B3C4D"
       [Sample.stored_order Sample.uuid1 1000;
        Sample.stored_order Sample.uuid2 2000]
     = Some (Sample.stored_order Sample.uuid1 1000).
Proof.
  assert (Hk : NoDup (map o_id [Sample.stored_order Sample.uuid1 1000;
                                Sample.stored_order Sample.uuid2 2000])).
  { apply (bool_decide_unpack _). vm_compute. exact I. }
  assert (Hi : In (Sample.stored_order Sample.uuid1 1000)
                  [Sample.stored_order Sample.uuid1 1000;
                   Sample.stored_order Sample.uuid2 2000]) by (by left).
  split; [exact Hk|]. split; [exact Hi|].
  apply (search_by_full_identifier _ _ _ Hk); [|exact Hi|reflexivity].
  repeat constructor.
Defined.

Lemma like_percents (t : string) :
  Like.like (String Like.percent (String Like.percent
             (String Like.percent EmptyString))) t = true.
Proof.
  apply LikeFacts.like_percent_spec. exists EmptyString, t. split; [done|].
  apply LikeFacts.like_percent_spec. exists EmptyString, t. split; [done|].
  apply LikeFacts.like_percent_only.
Qed.

(** X11. The fragments that select every order. For the empty fragment and
    for the fragment [%], the search returns no order exactly on the empty
    store, and otherwise an order of the store that no order is more
    recent than, whatever the identifiers are. *)
Theorem search_selects_every_order (tbl : list order) :
  search_order_by_id "" tbl = order_by_created_at_desc_limit_1 tbl
  /\ search_order_by_id "%" tbl = order_by_created_at_desc_limit_1 tbl
  /\ (order_by_created_at_desc_limit_1 tbl = None <-> tbl = [])
  /\ (forall o, order_by_created_at_desc_limit_1 tbl = Some o ->
        In o tbl
        /\ forall o', In o' tbl -> created_at o' <= created_at o).
Proof.
  split; [|split; [|split]].
  - rewrite search_plain by reflexivity. f_equal. apply filter_all.
    intros o _. unfold Like.contains_ci. apply LikeFacts.contains_spec.
    by exists EmptyString, (Like.lower (o_id o)).
  - unfold search_order_by_id. f_equal. apply filter_all.
    intros o _. unfold Like.ilike. apply like_percents.
  - pose proof (order_by_created_at_desc_limit_1_spec tbl) as H.
    destruct (order_by_created_at_desc_limit_1 tbl) as [o|].
    + split; [discriminate|]. intros ->. by destruct H.
    + by split.
  - intros o E.
    pose proof (order_by_created_at_desc_limit_1_spec tbl) as H.
    by rewrite E in H.
Qed.

(** ** Runs of the hook against the store *)



(** X13. Every run of the hook, whatever it returns and whatever fails,
    keeps the keys of the store: identifiers of orders stay pairwise
    different, every line item still belongs to an order, and the orders
    and line items that were there are still there, in place, new rows
    being appended. *)
Theorem createOrder_keeps_keys
    (env : Env) (now : Z) (clientIp : option string) (payload : OrderPayload)
    (db : DB)
    (Hkey : NoDup (map o_id (orders db)))
    (Hfk : foreign_key_holds db) :
  let db' := db_after (createOrder env now clientIp payload db) in
  NoDup (map o_id (orders db'))
  /\ foreign_key_holds db'
  /\ (exists new, orders db' = orders db ++ new)
  /\ (exists new, order_items db' = order_items db ++ new)
  /\ map mi_id (menu_items db') = map mi_id (menu_items db).
Proof.
  intros db'. subst db'.
  assert (Hgrow : forall ord,
            ¬ In (o_id ord) (map o_id (orders db)) ->
            NoDup (map o_id (orders db ++ [ord]))).
  { intros ord Hpk. rewrite map_app. apply NoDup_app. split; [done|].
    split; [|apply NoDup_singleton].
    intros x Hx [E|[]]%list_elem_of_In. subst x. apply Hpk.
    by apply list_elem_of_In. }
  assert (Hfk1 : forall ord r,
            In r (order_items db) ->
            In (order_id r) (map o_id (orders db ++ [ord]))).
  { intros ord r Hr. rewrite map_app. apply in_or_app. left. by apply Hfk. }
  assert (Hfk2 : forall ord r,
            In r (order_items db ++ orderItems now ord payload) ->
            In (order_id r) (map o_id (orders db ++ [ord]))).
  { intros ord r [Hr|Hr]%in_app_or; [by apply Hfk1|].
    apply orderItems_order_id in Hr as [-> _].
    rewrite map_app. apply in_or_app. right. by left. }
  assert (Hids : forall entries tbl,
            map mi_id (decrement_menu_item_stock entries tbl) = map mi_id tbl).
  { intros entries tbl. rewrite decrement_menu_item_stock_map, map_map.
    apply map_ext. intros row.
    by destruct (row_kept_items entries row row (row_kept_refl row)). }
  createOrder_cases short e db1 ord db2 db3 Hcheck Hhead Hlines Hdec.
  - split; [done|]. split; [done|]. split; [exists []; by rewrite app_nil_r|].
    split; [exists []; by rewrite app_nil_r|done].
  - split; [done|]. split; [done|]. split; [exists []; by rewrite app_nil_r|].
    split; [exists []; by rewrite app_nil_r|done].
  - apply insert_order_inr in Hhead as (_ & _ & _ & Hpk & ->).
    apply insert_order_items_Some in Hlines as (_ & _ & ->).
    apply rpc_decrement_Some in Hdec as [_ ->]. simpl.
    split; [by apply Hgrow|]. split; [intros r Hr; by apply Hfk2|].
    split; [by eexists|]. split; [by eexists|apply Hids].
  - apply insert_order_inr in Hhead as (_ & _ & _ & Hpk & ->).
    apply insert_order_items_Some in Hlines as (_ & _ & ->). simpl.
    split; [by apply Hgrow|]. split; [intros r Hr; by apply Hfk2|].
    split; [by eexists|]. split; [by eexists|done].
  - apply insert_order_inr in Hhead as (_ & _ & _ & Hpk & ->). simpl.
    split; [by apply Hgrow|]. split; [intros r Hr; by apply Hfk1|].
    split; [by eexists|]. split; [exists []; by rewrite app_nil_r|done].
Qed.

Lemma createOrder_keeps_keys_witness :
  NoDup (map o_id (orders (Sample.store 10)))
  /\ foreign_key_holds (Sample.store 10)
  /\ NoDup (map o_id (orders (db_after
       (createOrder (Sample.items_fail Sample.uuid1) 1000 None
          (Sample.jane [Sample.line 2] 50000) (Sample.store 10))))).
Proof.
  assert (Hk : NoDup (map o_id (orders (Sample.store 10)))) by constructor.
  assert (Hfk : foreign_key_holds (Sample.store 10)) by (intros r []).
  split; [exact Hk|]. split; [exact Hfk|].
  exact (proj1 (createOrder_keeps_keys (Sample.items_fail Sample.uuid1) 1000
                  None (Sample.jane [Sample.line 2] 50000) (Sample.store 10)
                  Hk Hfk)).
Defined.






(** ** The cooldown over time *)

Lemma in_cooldown_earlier (now now' : Z) (o : order) :
  now <= now' -> in_cooldown now' o = true -> in_cooldown now o = true.
Proof. unfold in_cooldown. rewrite !Z.leb_le. lia. Qed.

Lemma count_later {A} (f f' : A -> bool) (l : list A) :
  (forall x, f' x = true -> f x = true) ->
  (0 <? Z.of_nat (length (List.filter f l))) = false ->
  (0 <? Z.of_nat (length (List.filter f' l))) = false.
Proof.
  intros Hff H.
  destruct (0 <? Z.of_nat (length (List.filter f' l))) eqn:E; [|done].
  apply count_pos in E as (x & Hx & Hfx).
  assert ((0 <? Z.of_nat (length (List.filter f l))) = true); [|congruence].
  apply count_pos. exists x. split; [done|]. by apply Hff.
Qed.

(** X15. Waiting never hurts: an insert that the rate-limit trigger lets
    through at some time is let through at every later time, as long as
    the table of orders is the same. *)
Theorem cooldown_only_elapses (now now' : Z) (tbl : list order)
    (NEW : order) (Hlater : now <= now')
    (Hadmitted : prevent_spam_orders_per_ip now tbl NEW = None) :
  prevent_spam_orders_per_ip now' tbl NEW = None.
Proof.
  revert Hadmitted. unfold prevent_spam_orders_per_ip.
  destruct (missing_identifiers NEW); [discriminate|].
  set (ipc := fun n => if identifier_present (ip_address NEW)
                       then recent_count n tbl NEW else 0).
  change (if identifier_present (ip_address NEW)
          then recent_count now tbl NEW else 0) with (ipc now).
  change (if identifier_present (ip_address NEW)
          then recent_count now' tbl NEW else 0) with (ipc now').
  destruct ((0 <? ipc now) || (0 <? recent_phone_count now tbl NEW)) eqn:E;
    [discriminate|].
  intros _. apply orb_false_iff in E as [E1 E2].
  assert (E1' : (0 <? ipc now') = false).
  { subst ipc. cbv beta in *.
    destruct (identifier_present (ip_address NEW)); [|done].
    unfold recent_count in *. revert E1. apply count_later.
    intros o [H1 H2]%andb_true_iff. apply andb_true_iff. split; [done|].
    by apply (in_cooldown_earlier now now'). }
  assert (E2' : (0 <? recent_phone_count now' tbl NEW) = false).
  { unfold recent_phone_count in *.
    destruct (identifier_present (contact_number NEW)); [|done].
    revert E2. apply count_later.
    intros o [H1 H2]%andb_true_iff. apply andb_true_iff. split; [done|].
    by apply (in_cooldown_earlier now now'). }
  by rewrite E1', E2'.
Qed.

Lemma cooldown_only_elapses_witness :
  1061 <= 5000
  /\ prevent_spam_orders_per_ip 1061 [Sample.stored_order Sample.uuid1 1000]
       (Sample.stored_order Sample.uuid2 0) = None
  /\ prevent_spam_orders_per_ip 5000 [Sample.stored_order Sample.uuid1 1000]
       (Sample.stored_order Sample.uuid2 0) = None.
Proof.
  assert (H1 : 1061 <= 5000) by lia.
  assert (H2 : prevent_spam_orders_per_ip 1061
                 [Sample.stored_order Sample.uuid1 1000]
                 (Sample.stored_order Sample.uuid2 0) = None)
    by (vm_compute; reflexivity).
  split; [exact H1|]. split; [exact H2|].
  exact (cooldown_only_elapses 1061 5000 _ _ H1 H2).
Defined.

(** ** The repair statements of the diagnostic file *)

Module DiagnoseFacts.
Import Sql3 Diagnose.

Lemma holds_track (r : menu_item) :
  holds (eq3 (track_inventory r) (Some true)) = true <-> tracked r.
Proof.
  unfold tracked. destruct (track_inventory r) as [[]|]; simpl; split;
    congruence.
Qed.

Lemma fix_sync_row (r : menu_item) :
  in_sync (update_row (fun r => holds (eq3 (track_inventory r) (Some true)))
             (fun r => set_available r
                         (gt3 (stock_quantity r) (low_stock_threshold r))) r)
  /\ (¬ tracked r ->
      update_row (fun r => holds (eq3 (track_inventory r) (Some true)))
        (fun r => set_available r
                    (gt3 (stock_quantity r) (low_stock_threshold r))) r
      = r).
Proof.
  unfold update_row.
  destruct (holds (eq3 (track_inventory r) (Some true))) eqn:E.
  - apply holds_track in E. split; [|done]. intros _.
    rewrite sync_tracked_shape by exact E. cbn.
    eexists _, _. split; [reflexivity|]. split; [reflexivity|].
    split; [lia|]. split; [lia|].
    unfold is_distinct_from.
    destruct (stock_quantity r) as [q|] eqn:Eq,
             (low_stock_threshold r) as [t|] eqn:Et; cbn;
      repeat case_bool_decide; cbn; some_facts;
      try (f_equal; rewrite Z.leb_antisym, negb_involutive; reflexivity);
      try (f_equal; f_equal; lia);
      try (exfalso; lia).
  - split; [|done]. intros Ht. apply holds_track in Ht. congruence.
Qed.

Lemma in_sync_no_problem (r : menu_item) :
  in_sync r ->
  stock_is_null r = false /\ availability_mismatch r = false
  /\ trigger_would_set_to r = available r.
Proof.
  intros Hs. unfold stock_is_null, availability_mismatch, trigger_would_set_to.
  destruct (decide (tracked r)) as [Ht|Ht].
  - destruct (Hs Ht) as (q & t & -> & -> & _ & _ & ->).
    unfold tracked in Ht. rewrite Ht. cbn.
    rewrite (Z.leb_antisym t q).
    destruct (t <? q); cbn; repeat split; reflexivity.
  - unfold tracked in Ht.
    destruct (track_inventory r) as [[]|]; [done| |]; cbn;
      repeat split; try reflexivity;
      destruct (stock_quantity r) as [q|], (low_stock_threshold r) as [t|],
               (available r) as [[]|];
      cbn; try reflexivity;
      repeat match goal with
             | |- context [Z.leb ?a ?b] => destruct (Z.leb a b); cbn
             | |- context [Z.ltb ?a ?b] => destruct (Z.ltb a b); cbn
             end; reflexivity.
Qed.

(** X16. The repairs repair. After the three statements of section 10,
    and already after the third of them alone, on any table: every tracked
    row has a quantity and a threshold that are not NULL and not negative
    and is available exactly when the quantity exceeds the threshold; both
    queries for problem rows of section 8 return no row; the column
    [trigger_would_set_to] of query 5 equals the stored availability in
    every row; and the rows that do not track their stock are left as they
    are. *)
Theorem repairs_leave_no_problem_row (tbl : list menu_item) :
  Forall in_sync (fix_sync_availability tbl)
  /\ Forall in_sync (fix_common_issues tbl)
  /\ items_without_stock (fix_common_issues tbl) = []
  /\ items_with_mismatch (fix_common_issues tbl) = []
  /\ Forall (fun r => trigger_would_set_to r = available r)
            (fix_common_issues tbl)
  /\ (forall i r, tbl !! i = Some r -> ¬ tracked r ->
        fix_common_issues tbl !! i = Some r).
Proof.
  assert (Hsync : forall t, Forall in_sync (fix_sync_availability t)).
  { intros t. unfold fix_sync_availability, update_menu_items.
    apply List.Forall_forall. intros r Hr.
    apply in_map_iff in Hr as (r0 & <- & _). apply fix_sync_row. }
  split; [apply Hsync|]. split; [apply Hsync|].
  pose proof (Hsync (fix_null_threshold (fix_null_stock tbl))) as H.
  fold (fix_common_issues tbl) in H. rewrite List.Forall_forall in H.
  split; [|split; [|split]].
  - apply filter_none. intros r Hr. by apply in_sync_no_problem, H.
  - apply filter_none. intros r Hr. by apply in_sync_no_problem, H.
  - apply List.Forall_forall. intros r Hr. by apply in_sync_no_problem, H.
  - intros i r Hi Ht. unfold fix_common_issues, fix_sync_availability,
      fix_null_threshold, fix_null_stock, update_menu_items.
    change (map ?f ?l) with (f <$> l). rewrite !list_lookup_fmap, Hi. simpl.
    assert (E1 : update_row stock_is_null
                   (fun r => set_stock_quantity r (Some 0)) r = r).
    { unfold update_row, stock_is_null, tracked in *.
      destruct (track_inventory r) as [[]|]; [congruence|reflexivity|].
      by destruct (stock_quantity r). }
    rewrite E1.
    assert (E2 : update_row
                   (fun r => holds (and3 (eq3 (track_inventory r) (Some true))
                                         (is_null (low_stock_threshold r))))
                   (fun r => set_low_stock_threshold r (Some 0)) r = r).
    { unfold update_row, tracked in *.
      destruct (track_inventory r) as [[]|]; [congruence|reflexivity|].
      by destruct (low_stock_threshold r). }
    rewrite E2. f_equal. by apply fix_sync_row.
Qed.

End DiagnoseFacts.

(** ** The add-on selection of the menu item card *)

Module CardFacts.
Import Card.

Lemma find_selected_cons (addOn : AddOn) (a : SelectedAddOn)
    (l : list SelectedAddOn) :
  find_selected addOn (a :: l)
  = if decide (sel_id a = ao_id addOn) then Some (0%nat, a)
    else prod_map S id <$> find_selected addOn l.
Proof. reflexivity. Qed.

Lemma find_selected_None (addOn : AddOn) (l : list SelectedAddOn) :
  find_selected addOn l = None <-> ao_id addOn ∉ sel_id <$> l.
Proof.
  unfold find_selected. rewrite list_find_None, list_elem_of_fmap.
  rewrite List.Forall_forall. split.
  - intros H (a & E & Ha). apply (H a); [by apply list_elem_of_In|done].
  - intros H a Ha E. apply H. exists a. split; [done|].
    by apply list_elem_of_In.
Qed.

Lemma find_selected_Some (addOn : AddOn) (l : list SelectedAddOn) i a :
  find_selected addOn l = Some (i, a) ->
  l !! i = Some a /\ sel_id a = ao_id addOn.
Proof.
  unfold find_selected. rewrite list_find_Some. tauto.
Qed.


Lemma update_nil (addOn : AddOn) (q : Z) :
  q <> 0 -> updateAddOnQuantity addOn q [] = [select addOn q].
Proof.
  intros Hq. unfold updateAddOnQuantity. by rewrite bool_decide_eq_false_2.
Qed.

Lemma update_cons (addOn : AddOn) (q : Z) (a : SelectedAddOn)
    (l : list SelectedAddOn) :
  q <> 0 ->
  updateAddOnQuantity addOn q (a :: l)
  = if decide (sel_id a = ao_id addOn) then with_quantity a q :: l
    else a :: updateAddOnQuantity addOn q l.
Proof.
  intros Hq. unfold updateAddOnQuantity.
  rewrite bool_decide_eq_false_2 by done. rewrite find_selected_cons.
  destruct (decide (sel_id a = ao_id addOn)); [done|].
  by destruct (find_selected addOn l) as [[i b]|].
Qed.

Lemma update_zero_cons (addOn : AddOn) (a : SelectedAddOn)
    (l : list SelectedAddOn) :
  updateAddOnQuantity addOn 0 (a :: l)
  = if decide (sel_id a = ao_id addOn) then updateAddOnQuantity addOn 0 l
    else a :: updateAddOnQuantity addOn 0 l.
Proof.
  unfold updateAddOnQuantity. simpl. rewrite filter_cons.
  destruct (decide (sel_id a = ao_id addOn)) as [E|E];
    destruct (decide (sel_id a ≠ ao_id addOn)); done.
Qed.

Lemma snd_shift {A} (x : option (nat * A)) :
  snd <$> (prod_map S id <$> x) = snd <$> x.
Proof. by destruct x as [[i a]|]. Qed.

Lemma find_after_update (addOn other : AddOn) (q : Z)
    (prev : list SelectedAddOn) :
  snd <$> find_selected other (updateAddOnQuantity addOn q prev)
  = if bool_decide (ao_id other = ao_id addOn)
    then if bool_decide (q = 0) then None
         else Some (match find_selected addOn prev with
                    | Some (_, a) => with_quantity a q
                    | None => select addOn q
                    end)
    else snd <$> find_selected other prev.
Proof.
  destruct (decide (q = 0)) as [->|Hq].
  - rewrite (bool_decide_eq_true_2 (0 = 0)) by done.
    induction prev as [|a l IH]; [by case_bool_decide|].
    rewrite update_zero_cons, (find_selected_cons other a l).
    destruct (decide (sel_id a = ao_id addOn)) as [E|E].
    + rewrite IH. case_bool_decide as Ho; [done|].
      destruct (decide (sel_id a = ao_id other)); [congruence|].
      by rewrite snd_shift.
    + rewrite find_selected_cons.
      destruct (decide (sel_id a = ao_id other)) as [E'|E'].
      * case_bool_decide; [congruence|done].
      * by rewrite !snd_shift, IH.
  - rewrite (bool_decide_eq_false_2 (q = 0)) by done.
    induction prev as [|a l IH].
    + rewrite update_nil by done. rewrite find_selected_cons. simpl.
      case_bool_decide as Ho.
      * by destruct (decide (ao_id addOn = ao_id other)).
      * by destruct (decide (ao_id addOn = ao_id other)).
    + rewrite update_cons by done. rewrite (find_selected_cons addOn a l).
      destruct (decide (sel_id a = ao_id addOn)) as [E|E].
      * rewrite !find_selected_cons. simpl.
        case_bool_decide as Ho.
        -- by destruct (decide (sel_id a = ao_id other)); [|congruence].
        -- by destruct (decide (sel_id a = ao_id other)); [congruence|].
      * rewrite !find_selected_cons.
        destruct (decide (sel_id a = ao_id other)) as [E'|E'].
        -- case_bool_decide; [congruence|done].
        -- rewrite !snd_shift, IH. case_bool_decide; [|done].
           by destruct (find_selected addOn l) as [[j c]|].
Qed.

(** X17. Setting the quantity of an add-on and looking an add-on up. After
    [updateAddOnQuantity(addOn, quantity)], on any selection: the add-on
    itself is not found if the quantity is zero, and otherwise it is found
    with the given quantity, as the entry that was there before or, if there
    was none, as the add-on itself; any add-on with another id is found
    exactly as before. *)
Theorem updated_add_on_is_found (addOn other : AddOn) (quantity : Z)
    (prev : list SelectedAddOn) :
  (quantity = 0 ->
   find_selected addOn (updateAddOnQuantity addOn quantity prev) = None)
  /\ (quantity <> 0 ->
      snd <$> find_selected addOn (updateAddOnQuantity addOn quantity prev)
      = Some (match find_selected addOn prev with
              | Some (_, a) => with_quantity a quantity
              | None => select addOn quantity
              end))
  /\ (ao_id other <> ao_id addOn ->
      snd <$> find_selected other (updateAddOnQuantity addOn quantity prev)
      = snd <$> find_selected other prev).
Proof.
  split; [|split].
  - intros ->. pose proof (find_after_update addOn addOn 0 prev) as H.
    rewrite !bool_decide_eq_true_2 in H by done.
    by destruct (find_selected addOn (updateAddOnQuantity addOn 0 prev)).
  - intros Hq. rewrite find_after_update.
    rewrite bool_decide_eq_true_2 by done.
    by rewrite bool_decide_eq_false_2 by done.
  - intros Ho. rewrite find_after_update.
    by rewrite bool_decide_eq_false_2 by done.
Qed.

Lemma tidy_mono (n m : Z) (l : list SelectedAddOn) :
  n <= m -> tidy n l -> tidy m l.
Proof.
  intros Hnm [Hd Hq]. split; [done|].
  eapply Forall_impl; [exact Hq|]. simpl. intros a Ha. lia.
Qed.

Lemma update_zero_tidy (addOn : AddOn) (n : Z) (l : list SelectedAddOn) :
  tidy n l ->
  tidy n (updateAddOnQuantity addOn 0 l)
  /\ (forall i, i ∈ sel_id <$> updateAddOnQuantity addOn 0 l ->
                i ∈ sel_id <$> l).
Proof.
  induction l as [|a l IH]; intros [Hd Hq].
  - split; [by split|done].
  - rewrite fmap_cons in Hd. apply NoDup_cons in Hd as [Ha Hd].
    apply Forall_cons in Hq as [Hqa Hq].
    destruct (IH (conj Hd Hq)) as [[Hd' Hq'] Hsub].
    rewrite update_zero_cons.
    destruct (decide (sel_id a = ao_id addOn)) as [E|E].
    + split; [by split|]. intros i Hi. rewrite fmap_cons.
      apply elem_of_cons. right. by apply Hsub.
    + split.
      * split.
        -- rewrite fmap_cons. apply NoDup_cons. split; [|done].
           intros Hin. by apply Ha, Hsub.
        -- by apply Forall_cons.
      * intros i. rewrite !fmap_cons, !elem_of_cons.
        intros [->|Hi]; [by left|]. right. by apply Hsub.
Qed.

Lemma update_tidy (addOn : AddOn) (q n : Z) (l : list SelectedAddOn) :
  q <> 0 -> 1 <= q <= n -> tidy n l ->
  tidy n (updateAddOnQuantity addOn q l)
  /\ (forall i, i ∈ sel_id <$> updateAddOnQuantity addOn q l ->
                i ∈ sel_id <$> l \/ i = ao_id addOn).
Proof.
  intros Hq0 Hqn. induction l as [|a l IH]; intros [Hd Hq].
  - rewrite update_nil by done. split.
    + split; [apply NoDup_singleton|]. by apply Forall_singleton.
    + intros i. simpl. rewrite list_elem_of_singleton. by right.
  - rewrite fmap_cons in Hd. apply NoDup_cons in Hd as [Ha Hd].
    apply Forall_cons in Hq as [Hqa Hq].
    destruct (IH (conj Hd Hq)) as [[Hd' Hq'] Hsub].
    rewrite update_cons by done.
    destruct (decide (sel_id a = ao_id addOn)) as [E|E].
    + split.
      * split.
        -- rewrite fmap_cons. simpl. by apply NoDup_cons.
        -- by apply Forall_cons.
      * intros i. rewrite !fmap_cons. simpl. by left.
    + split.
      * split.
        -- rewrite fmap_cons. apply NoDup_cons. split; [|done].
           intros Hin. destruct (Hsub _ Hin) as [Hin'|Hin']; [by apply Ha|].
           by apply E.
        -- by apply Forall_cons.
      * intros i. rewrite !fmap_cons, !elem_of_cons.
        intros [->|Hi]; [by left; left|].
        destruct (Hsub _ Hi) as [Hi'|Hi']; [left; by right|by right].
Qed.

Lemma press_tidy (c : button * AddOn) (n : Z) (s s' : list SelectedAddOn) :
  0 <= n -> tidy n s -> press c s = Some s' -> tidy (n + 1) s'.
Proof.
  intros Hn Ht. destruct c as [b addOn]. unfold press, rendered. simpl.
  case_bool_decide as Hb; [|done]. intros [= <-].
  apply (tidy_mono n (n + 1)) in Ht as Ht1; [|lia].
  unfold on_click.
  destruct (find_selected addOn s) as [[i cur]|] eqn:F.
  - assert (Hcur : 1 <= sel_quantity cur <= n).
    { apply find_selected_Some in F as [Hi _]. destruct Ht as [_ Hq].
      rewrite Forall_lookup in Hq. by apply (Hq i). }
    assert (Hor : forall d, or_number (Some (sel_quantity cur)) d
                            = sel_quantity cur).
    { intros d. unfold or_number.
      destruct (sel_quantity cur =? 0) eqn:E; [lia|done]. }
    apply elem_of_cons in Hb as [->|Hb].
    + change (sel_quantity <$> (snd <$> Some (i, cur)))
        with (Some (sel_quantity cur)). rewrite Hor.
      destruct (decide (sel_quantity cur - 1 = 0)) as [E|E].
      * rewrite E. by apply update_zero_tidy.
      * apply update_tidy; [done|lia|done].
    + apply list_elem_of_singleton in Hb as ->.
      change (sel_quantity <$> (snd <$> Some (i, cur)))
        with (Some (sel_quantity cur)). rewrite Hor.
      apply update_tidy; [lia|lia|done].
  - apply list_elem_of_singleton in Hb as ->.
    apply update_tidy; [done|lia|done].
Qed.

Lemma presses_snoc (cs : list (button * AddOn)) (c : button * AddOn)
    (s : list SelectedAddOn) :
  presses (cs ++ [c]) s = presses cs s ≫= press c.
Proof. unfold presses. by rewrite foldl_app. Qed.

Lemma presses_tidy (cs : list (button * AddOn)) (s : list SelectedAddOn) :
  presses cs [] = Some s -> tidy (Z.of_nat (length cs)) s.
Proof.
  revert s. induction cs as [|c cs IH] using rev_ind; intros s.
  - intros [= <-]. split; [apply NoDup_nil_2|apply Forall_nil_2].
  - rewrite presses_snoc.
    destruct (presses cs []) as [s0|]; [|done]. simpl. intros Hp.
    rewrite length_app. simpl.
    replace (Z.of_nat (length cs + 1)) with (Z.of_nat (length cs) + 1) by lia.
    eapply press_tidy; [lia|by apply IH|done].
Qed.

(** X18. The buttons keep the selection tidy. After any sequence of clicks
    on buttons that are on the screen, starting from the empty selection, no
    add-on is selected twice and every selected add-on has a quantity of at
    least one, and of at most the number of clicks: an entry whose quantity
    would become zero is removed instead. *)
Theorem selection_stays_tidy (cs : list (button * AddOn))
    (selected : list SelectedAddOn)
    (Hclicks : presses cs [] = Some selected) :
  NoDup (sel_id <$> selected)
  /\ Forall (fun a => 1 <= sel_quantity a <= Z.of_nat (length cs)) selected.
Proof. by apply presses_tidy. Qed.

Lemma selection_stays_tidy_witness :
  presses CardSample.clicks [] = Some CardSample.chosen
  /\ NoDup (sel_id <$> CardSample.chosen)
  /\ Forall (fun a => 1 <= sel_quantity a
                       <= Z.of_nat (length CardSample.clicks))
            CardSample.chosen.
Proof.
  split; [reflexivity|].
  apply (selection_stays_tidy CardSample.clicks CardSample.chosen).
  reflexivity.
Defined.


Lemma Array_fill_None {A} (n : Z) (x : A) :
  Array_fill n x = None <-> n < 0 \/ 2 ^ 32 <= n.
Proof.
  unfold Array_fill.
  destruct (0 <=? n) eqn:E1, (n <? 2 ^ 32) eqn:E2; simpl; split;
    first [done | lia | intros _; lia].
Qed.

Lemma addOnsForCart_cons (a : SelectedAddOn) (l : list SelectedAddOn) :
  addOnsForCart (a :: l)
  = match Array_fill (sel_quantity a) (without_quantity a) with
    | Some x => (fun r => x ++ r) <$> addOnsForCart l
    | None => None
    end.
Proof.
  unfold addOnsForCart. simpl.
  destruct (Array_fill (sel_quantity a) (without_quantity a)); [|done].
  simpl. by destruct (mapM _ l).
Qed.




Lemma addOnsForCart_None (l : list SelectedAddOn) :
  addOnsForCart l = None <->
  Exists (fun a => sel_quantity a < 0 \/ 2 ^ 32 <= sel_quantity a) l.
Proof.
  induction l as [|a l IH].
  - split; [done|]. by intros H%Exists_nil.
  - rewrite addOnsForCart_cons, Exists_cons, <- IH,
      <- (Array_fill_None (sel_quantity a) (without_quantity a)).
    destruct (Array_fill (sel_quantity a) (without_quantity a)) as [x|];
      [|by split; [left|]].
    destruct (addOnsForCart l); simpl.
    + split; [done|]. by intros [|].
    + split; [by right|done].
Qed.



(** X20. When the expansion of the add-ons throws.
    [handleCustomizedAddToCart] fails with a RangeError, before it calls
    the cart or changes the dialog, exactly when some selected add-on has a
    quantity that is negative or at least [2^32]. *)
Theorem expansion_throws_iff (item : MenuItem) (st : dialog) :
  handleCustomizedAddToCart item st = None <->
  Exists (fun a => sel_quantity a < 0 \/ 2 ^ 32 <= sel_quantity a)
         (chosenAddOns st).
Proof.
  rewrite <- addOnsForCart_None. unfold handleCustomizedAddToCart.
  by destruct (addOnsForCart (chosenAddOns st)).
Qed.

(** X21. The price beside a variation and the total of the dialog. The
    price printed beside a variation is the total that the dialog shows for
    that variation without add-ons, except for an item whose effective
    price is zero: there the label adds the base price, which the total
    does not. *)
Theorem variation_label_and_total (item : MenuItem) (variation : Variation) :
  variation_price_label item variation
  = calculatePrice item (Some variation) []
    + (if bool_decide (effectivePrice item = Some 0) then basePrice item
       else 0).
Proof.
  unfold variation_price_label, calculatePrice, effective, or_number. simpl.
  destruct (effectivePrice item) as [e|]; simpl.
  - destruct (e =? 0) eqn:E; case_bool_decide as H.
    + injection H as ->. lia.
    + exfalso. apply H. f_equal. lia.
    + injection H as ->. done.
    + lia.
  - lia.
Qed.

(** X22. The discount shown on the card. A discounted price line is shown
    exactly when a discounted price is defined, so the second test of the
    price line never decides. With the SALE badge, the line shows the
    discount price of the item beside its base price. Whenever a discounted
    line is shown, the struck price is the base price, and without an
    explicit discount the price shown is the effective price, is below the
    base price and is the price from which the total of the dialog
    starts. *)
Theorem discount_display (item : MenuItem) :
  (showDiscount item = true <-> is_Some (discountedPrice item))
  /\ (sale_badge item = true ->
      exists d, discountPrice item = Some d
                /\ product_price item = Discounted d (basePrice item))
  /\ (forall p b, product_price item = Discounted p b ->
        b = basePrice item
        /\ (hasExplicitDiscount item = true -> discountPrice item = Some p)
        /\ (hasExplicitDiscount item = false ->
            p = effective item /\ p < b
            /\ calculatePrice item None [] = p)).
Proof.
  unfold product_price, showDiscount, discountedPrice, sale_badge,
    hasExplicitDiscount, hasImplicitDiscount, calculatePrice.
  destruct (isOnDiscount item) as [[]|], (discountPrice item) as [d|];
    simpl;
    destruct (effective item <? basePrice item) eqn:E; simpl;
    try apply Z.ltb_lt in E;
    (split; [split; [by eauto|by intros [? ?]]|]);
    (split; [first [done | by eauto]|]);
    intros p b Hline; try discriminate Hline;
    injection Hline as <- <-;
    (split; [done|]); (split; [done|]);
    try done; intros _; by repeat split.
Qed.

Lemma group_by_category_snoc (l : list AddOn) (a : AddOn) :
  group_by_category (l ++ [a])
  = group_by_category l ≫= fun groups => group_step groups a.
Proof. unfold group_by_category. by rewrite foldl_app. Qed.

Lemma group_by_category_Some (l : list AddOn)
    (groups : gmap string (list AddOn)) (c : string) :
  group_by_category l = Some groups ->
  default [] (groups !! c) = filter (fun a => ao_category a = c) l
  /\ (groups !! c = None <-> filter (fun a => ao_category a = c) l = []).
Proof.
  revert groups. induction l as [|a l IH] using rev_ind; intros groups.
  - intros [= <-]. by rewrite lookup_empty.
  - rewrite group_by_category_snoc.
    destruct (group_by_category l) as [g|]; [|done]. simpl.
    unfold group_step. case_bool_decide as Hin; [done|]. intros [= <-].
    destruct (IH g eq_refl) as [IH1 IH2].
    rewrite filter_app, filter_cons, filter_nil.
    destruct (decide (ao_category a = c)) as [->|E].
    + rewrite lookup_insert_eq. simpl. rewrite IH1. split; [done|].
      split; [done|]. by intros [_ ?]%app_eq_nil.
    + rewrite lookup_insert_ne by done. by rewrite app_nil_r.
Qed.

Lemma group_by_category_None (l : list AddOn) :
  group_by_category l = None <->
  Exists (fun a => ao_category a ∈ inherited) l.
Proof.
  induction l as [|a l IH] using rev_ind.
  - split; [done|]. by intros H%Exists_nil.
  - rewrite group_by_category_snoc, Exists_app, Exists_cons, Exists_nil,
      <- IH.
    destruct (group_by_category l) as [g|]; simpl.
    + unfold group_step. case_bool_decide; split; try done; try tauto.
      intros [|[|]]; done.
    + split; [by left|done].
Qed.

(** X23. Grouping the add-ons by category. The reduction throws exactly
    when some add-on has a category that is the name of a property every
    object inherits. Otherwise the result holds, at each category, the
    add-ons of that category in the order of the list, and holds nothing at
    a category that no add-on has. *)
Theorem add_ons_are_grouped_by_category (l : list AddOn) :
  (group_by_category l = None <->
   Exists (fun a => ao_category a ∈ inherited) l)
  /\ (forall groups c,
        group_by_category l = Some groups ->
        groups !! c
        = match filter (fun a => ao_category a = c) l with
          | [] => None
          | members => Some members
          end).
Proof.
  split; [apply group_by_category_None|].
  intros groups c Hg.
  destruct (group_by_category_Some l groups c Hg) as [H1 H2].
  destruct (filter (fun a => ao_category a = c) l) as [|a m] eqn:F.
  - by apply H2.
  - destruct (groups !! c) as [members|] eqn:E.
    + simpl in H1. by rewrite H1.
    + by pose proof (proj1 H2 eq_refl).
Qed.

End CardFacts.

(** ** The password form *)

Module PasswordFacts.
Import PasswordChange.

Lemma incr_if_mono (b b' : bool) (s s' : Z) :
  (b = true -> b' = true) -> s <= s' -> incr_if b s <= incr_if b' s'.
Proof.
  intros Hb Hs. unfold incr_if. destruct b, b'; lia.
Qed.

Lemma test_insert (class : N -> bool) (p1 x p2 : js_string) :
  test class (p1 ++ p2) = true -> test class (p1 ++ x ++ p2) = true.
Proof.
  unfold test. rewrite !existsb_app, !orb_true_iff. tauto.
Qed.

Lemma strength_value (p : js_string) :
  strength (getPasswordStrength p)
  = if (length p =? 0)%nat then 0
    else incr_if (test special p)
           (incr_if (test digit p)
              (incr_if (test lowercase p)
                 (incr_if (test uppercase p)
                    (incr_if (8 <=? length p)%nat 0)))).
Proof.
  unfold getPasswordStrength. destruct (length p =? 0)%nat; [done|].
  cbv zeta. by repeat (destruct (_ <=? _); [done|]).
Qed.

Lemma strength_bounds (p : js_string) :
  0 <= strength (getPasswordStrength p) <= 5.
Proof.
  rewrite strength_value. destruct (length p =? 0)%nat; [lia|].
  unfold incr_if.
  destruct (test special p), (test digit p), (test lowercase p),
    (test uppercase p), (8 <=? length p)%nat; lia.
Qed.

(** X24. A password passes the validation exactly when the strength meter
    is full. For every password, [validatePassword] accepts it if and only
    if [getPasswordStrength] gives the strength 5, which is if and only if
    the label is Strong; and the validation accepts exactly when its message
    is empty. The strength is always between 0 and 5. *)
Theorem valid_iff_strong (password : js_string) :
  (valid (validatePassword password) = true
   <-> strength (getPasswordStrength password) = 5)
  /\ (valid (validatePassword password) = true
      <-> label (getPasswordStrength password) = "Strong"%string)
  /\ (valid (validatePassword password) = true
      <-> message (validatePassword password) = ""%string)
  /\ 0 <= strength (getPasswordStrength password) <= 5.
Proof.
  split; [|split; [|split; [|apply strength_bounds]]];
    unfold validatePassword, getPasswordStrength, incr_if;
    destruct (Nat.ltb_spec (length password) 8) as [Hl|Hl];
    destruct (Nat.leb_spec 8 (length password)) as [Hl'|Hl']; try lia;
    destruct (Nat.eqb_spec (length password) 0) as [Hl0|Hl0]; try lia;
    destruct (test uppercase password), (test lowercase password),
      (test digit password), (test special password); simpl;
    split; intros H; first [done | lia].
Qed.

(** X25. More characters never make a password weaker. Inserting any
    characters anywhere into a password does not lower the strength that
    [getPasswordStrength] gives it, and a password that [validatePassword]
    accepts is still accepted after the insertion. *)
Theorem insertion_never_weakens (p1 x p2 : js_string) :
  strength (getPasswordStrength (p1 ++ p2))
  <= strength (getPasswordStrength (p1 ++ x ++ p2))
  /\ (valid (validatePassword (p1 ++ p2)) = true ->
      valid (validatePassword (p1 ++ x ++ p2)) = true).
Proof.
  assert (Hlen : (length (p1 ++ p2) <= length (p1 ++ x ++ p2))%nat).
  { rewrite !length_app. lia. }
  split.
  - rewrite !strength_value.
    destruct (Nat.eqb_spec (length (p1 ++ p2)) 0) as [E|E];
      destruct (Nat.eqb_spec (length (p1 ++ x ++ p2)) 0) as [E'|E'];
      try lia.
    + pose proof (strength_bounds (p1 ++ x ++ p2)) as Hb.
      rewrite strength_value in Hb.
      destruct (Nat.eqb_spec (length (p1 ++ x ++ p2)) 0); lia.
    + repeat (apply incr_if_mono; [try apply test_insert|]); [|lia].
      intros H%Nat.leb_le. apply Nat.leb_le. lia.
  - unfold validatePassword.
    destruct (Nat.ltb_spec (length (p1 ++ p2)) 8) as [Hl|Hl]; [done|].
    destruct (Nat.ltb_spec (length (p1 ++ x ++ p2)) 8) as [Hl'|Hl'];
      [lia|].
    destruct (test uppercase (p1 ++ p2)) eqn:U; [|done].
    rewrite (test_insert uppercase p1 x p2 U).
    destruct (test lowercase (p1 ++ p2)) eqn:L; [|done].
    rewrite (test_insert lowercase p1 x p2 L).
    destruct (test digit (p1 ++ p2)) eqn:D; [|done].
    rewrite (test_insert digit p1 x p2 D).
    destruct (test special (p1 ++ p2)) eqn:S; [|done].
    by rewrite (test_insert special p1 x p2 S).
Qed.

Lemma blank_false (s : js_string) : blank s = false <-> s <> [].
Proof. unfold blank. by rewrite bool_decide_eq_false. Qed.

Lemma handleSubmit_sent (changePassword : js_string -> auth_reply)
    (f : form) :
  currentPassword f <> [] -> newPassword f <> [] ->
  newPassword f = confirmPassword f ->
  currentPassword f <> newPassword f ->
  valid (validatePassword (newPassword f)) = true ->
  handleSubmit changePassword f
  = match changePassword (newPassword f) with
    | Auth_error msg =>
        (MkForm (currentPassword f) (newPassword f) (confirmPassword f)
                msg ""%string, [newPassword f])
    | Auth_ok =>
        (MkForm [] [] [] ""%string "Password changed successfully!",
         [newPassword f])
    | Auth_throws =>
        (MkForm (currentPassword f) (newPassword f) (confirmPassword f)
                "An unexpected error occurred. Please try again."
                ""%string, [newPassword f])
    end.
Proof.
  intros Hc Hn Hnc Hcn Hv. unfold handleSubmit. cbn.
  rewrite (proj2 (blank_false _) Hc), (proj2 (blank_false _) Hn).
  rewrite <- Hnc. rewrite (proj2 (blank_false _) Hn). cbn.
  rewrite (bool_decide_eq_true_2 (newPassword f = newPassword f)) by done.
  rewrite (bool_decide_eq_false_2 _ Hcn). cbn. rewrite Hv. cbn.
  destruct (changePassword (newPassword f)); unfold setError, setSuccess;
    cbn; by rewrite ?Hnc.
Qed.

Lemma handleSubmit_refused (changePassword : js_string -> auth_reply)
    (f : form) :
  ¬ (currentPassword f <> [] /\ newPassword f <> []
     /\ newPassword f = confirmPassword f
     /\ currentPassword f <> newPassword f
     /\ valid (validatePassword (newPassword f)) = true) ->
  exists msg,
    handleSubmit changePassword f
    = (MkForm (currentPassword f) (newPassword f) (confirmPassword f)
              msg ""%string, []).
Proof.
  intros Hno. unfold handleSubmit, blank. cbn.
  destruct (decide (currentPassword f = [])) as [Ec|Ec];
    [rewrite (bool_decide_eq_true_2 _ Ec); cbn; by eexists|].
  rewrite (bool_decide_eq_false_2 _ Ec).
  destruct (decide (newPassword f = [])) as [En|En];
    [rewrite (bool_decide_eq_true_2 _ En); cbn; by eexists|].
  rewrite (bool_decide_eq_false_2 _ En).
  destruct (decide (confirmPassword f = [])) as [Ek|Ek];
    [rewrite (bool_decide_eq_true_2 _ Ek); cbn; by eexists|].
  rewrite (bool_decide_eq_false_2 _ Ek). cbn.
  destruct (decide (newPassword f = confirmPassword f)) as [Enk|Enk];
    [rewrite (bool_decide_eq_true_2 _ Enk)
    |rewrite (bool_decide_eq_false_2 _ Enk); cbn; by eexists].
  cbn.
  destruct (decide (currentPassword f = newPassword f)) as [Ecn|Ecn];
    [rewrite (bool_decide_eq_true_2 _ Ecn); cbn; by eexists|].
  rewrite (bool_decide_eq_false_2 _ Ecn).
  destruct (valid (validatePassword (newPassword f))) eqn:Hv;
    [|cbn; by eexists].
  exfalso. by apply Hno.
Qed.

(** X26. The password is changed only after every check. [handleSubmit]
    calls [changePassword] at most once and only with the new password of
    the form, and it calls it exactly when all three fields are filled in,
    the new password equals its confirmation, differs from the current
    password, and passes [validatePassword]. The success message is set
    exactly when that call was made and resolved without an error; then the
    three fields are cleared and no error is shown. In every other case the
    fields are left as they are and no success message is shown. *)
Theorem password_change_is_gated (changePassword : js_string -> auth_reply)
    (f : form) :
  let checks := currentPassword f <> [] /\ newPassword f <> []
              /\ confirmPassword f <> []
              /\ newPassword f = confirmPassword f
              /\ currentPassword f <> newPassword f
              /\ valid (validatePassword (newPassword f)) = true in
  let f' := (handleSubmit changePassword f).1 in
  let sent := (handleSubmit changePassword f).2 in
  (checks -> sent = [newPassword f])
  /\ (¬ checks -> sent = [])
  /\ (success f' = "Password changed successfully!"%string
      <-> checks /\ changePassword (newPassword f) = Auth_ok)
  /\ (success f' = "Password changed successfully!"%string ->
      currentPassword f' = [] /\ newPassword f' = []
      /\ confirmPassword f' = [] /\ error f' = ""%string)
  /\ (success f' <> "Password changed successfully!"%string ->
      currentPassword f' = currentPassword f
      /\ newPassword f' = newPassword f
      /\ confirmPassword f' = confirmPassword f
      /\ success f' = ""%string).
Proof.
  intros checks f' sent. subst f' sent.
  destruct (decide (currentPassword f <> [] /\ newPassword f <> []
                    /\ newPassword f = confirmPassword f
                    /\ currentPassword f <> newPassword f
                    /\ valid (validatePassword (newPassword f)) = true))
    as [Hg|Hg].
  - assert (Hchecks : checks).
    { destruct Hg as (? & ? & E & ? & ?). repeat split; try done.
      by rewrite <- E. }
    destruct Hg as (Hc & Hn & Hnc & Hcn & Hv).
    rewrite (handleSubmit_sent changePassword f Hc Hn Hnc Hcn Hv).
    destruct (changePassword (newPassword f)); cbn;
      (split; [done|]); (split; [done|]);
      (split; [split; [done|by intros [_ ?]]|]); by split.
  - assert (Hchecks : ¬ checks).
    { intros (? & ? & ? & ? & ? & ?). by apply Hg. }
    destruct (handleSubmit_refused changePassword f Hg) as [msg ->]. cbn.
    split; [done|]. split; [done|].
    split; [split; [done|by intros [? _]]|]. by split.
Qed.

(** X27. The current password is not verified. Two submissions of the same
    form that differ only in what was typed as current password, each time
    something not empty and different from the new password, do the same:
    the same calls to [changePassword], the same error and success
    messages, the same new password and confirmation afterwards. *)
Theorem current_password_is_not_verified
    (changePassword : js_string -> auth_reply) (f : form)
    (c1 c2 : js_string)
    (Hfilled1 : c1 <> []) (Hfilled2 : c2 <> [])
    (Hother1 : c1 <> newPassword f) (Hother2 : c2 <> newPassword f) :
  let r1 := handleSubmit changePassword (setCurrentPassword c1 f) in
  let r2 := handleSubmit changePassword (setCurrentPassword c2 f) in
  r1.2 = r2.2
  /\ error r1.1 = error r2.1 /\ success r1.1 = success r2.1
  /\ newPassword r1.1 = newPassword r2.1
  /\ confirmPassword r1.1 = confirmPassword r2.1.
Proof.
  intros r1 r2. subst r1 r2. unfold handleSubmit, blank. cbn.
  rewrite (bool_decide_eq_false_2 _ Hfilled1),
    (bool_decide_eq_false_2 _ Hfilled2),
    (bool_decide_eq_false_2 _ Hother1), (bool_decide_eq_false_2 _ Hother2).
  cbn.
  destruct (bool_decide (newPassword f = [])); [done|].
  destruct (bool_decide (confirmPassword f = [])); [done|]. cbn.
  destruct (bool_decide (newPassword f = confirmPassword f)); [|done]. cbn.
  destruct (valid (validatePassword (newPassword f))); [|done]. cbn.
  by destruct (changePassword (newPassword f)).
Qed.

Lemma current_password_is_not_verified_witness :
  PasswordSample.old <> [] /\ PasswordSample.x <> []
  /\ PasswordSample.old <> PasswordSample.petshop1
  /\ PasswordSample.x <> PasswordSample.petshop1
  /\ (handleSubmit (fun _ => Auth_ok)
        (setCurrentPassword PasswordSample.old (PasswordSample.filled []))).2
     = (handleSubmit (fun _ => Auth_ok)
          (setCurrentPassword PasswordSample.x (PasswordSample.filled []))).2.
Proof.
  split; [done|]. split; [done|]. split; [done|]. split; [done|].
  apply (current_password_is_not_verified (fun _ => Auth_ok)
           (PasswordSample.filled []) PasswordSample.old PasswordSample.x);
    done.
Defined.

End PasswordFacts.
